(** * The training / evaluation controller of sympa (src/sympa/runner.py)

    A shallow embedding of [Runner]: the epoch loop, gradient accumulation,
    validation cadence, early stopping, best-model tracking, checkpoints and
    the export of results.

    Python integers are [Z]; Python floats are idealised as rationals [Q]
    (no rounding, no NaN), and [float("inf")] is a value of its own.  The
    model, the optimizer, the scheduler, the loss and the metrics are
    collaborators of the runner and enter as the fields of a record.  The
    calls the runner makes on the model, the optimizer and the scheduler, the
    losses it computes and what it hands to the telemetry writer, to the
    logger and to the stores are appended to a trace, so that counts and
    orders of calls can be stated. *)

From Stdlib Require Import ZArith QArith List String Bool Lia.
From Stdlib Require Import DecimalString.
From Stdlib Require Import RelationClasses Morphisms Setoid.
From Stdlib Require Import Ascii.
Import ListNotations.

Local Open Scope string_scope.
Local Open Scope list_scope.
Local Open Scope Z_scope.

(** ** Python values *)

(** A 2-D tensor is the list of its rows. *)
Definition Tensor := list (list Q).

(** [t[:, -1]]: the last column. *)
Definition last_column (t : Tensor) : list Q :=
  map (fun row => last row 0%Q) t.

(** [str(n)] of an integer. *)
Definition str_int (n : Z) : string := NilZero.string_of_int (Z.to_int n).

(** [x < y] on rationals, as a boolean. *)
Definition Qlt_bool (x y : Q) : bool :=
  (Qnum x * Zpos (Qden y) <? Qnum y * Zpos (Qden x))%Z.

(** The values [best_distortion] takes: [float("inf")] or a finite number. *)
Inductive pyfloat :=
| PosInf
| Finite (q : Q).

(** [d < best] for a finite [d]. *)
Definition lt_float (d : Q) (best : pyfloat) : bool :=
  match best with
  | PosInf => true
  | Finite b => Qlt_bool d b
  end.


Fixpoint Qsum (l : list Q) : Q :=
  match l with
  | [] => 0%Q
  | x :: l' => (x + Qsum l')%Q
  end.

Definition len {A : Type} (l : list A) : Z := Z.of_nat (List.length l).

(** The exceptions the runner can end with. *)
Inductive exn :=
| AssertionError (msg : string)
| ZeroDivisionError
| StatisticsError
| TypeError.

Inductive result (A : Type) :=
| Ok (a : A)
| Raise (e : exn).
Arguments Ok {A} a.
Arguments Raise {A} e.

(** [a % b] on integers: the sign follows the divisor, as [Z.modulo] does;
    a zero divisor raises. *)
Definition py_mod (a b : Z) : result Z :=
  if b =? 0 then Raise ZeroDivisionError else Ok (a mod b).

(** [x / n] of a float by an integer: a zero divisor raises. *)
Definition py_div (x : Q) (n : Z) : result Q :=
  if n =? 0 then Raise ZeroDivisionError else Ok (x / inject_Z n)%Q.

(** [statistics.mean]: exact mean, [StatisticsError] on no data. *)
Definition mean (l : list Q) : result Q :=
  match l with
  | [] => Raise StatisticsError
  | _ => Ok (Qsum l / inject_Z (len l))%Q
  end.

(** ** Configuration *)

(** The options of [args] the runner reads. *)
Record Args := {
  batch_size : Z;
  epochs : Z;
  grad_accum_steps : Z;
  max_grad_norm : Q;
  save_epochs : Z;
  val_every : Z;
  patience : Z;
  model : string;
  dims : Z;
  data : string;
  run_id : string;
  results_file : string
}.

(** The row [export_results] hands to [write_results_to_file]. *)
Record result_data := {
  rd_data : string;
  rd_dims : Z;
  rd_manifold : string;
  rd_run_id : string;
  rd_distortion : Q;
  rd_mAP : Q
}.

(** ** Collaborators *)

(** What the runner uses of the model, the optimizer, the scheduler, the loss
    and the metrics.  [StateDict] is what [model.state_dict()] holds,
    [Gradients] the [.grad] of the parameters. *)
Record Collaborators : Type := {
  StateDict : Type;
  Gradients : Type;
  Optimizer : Type;
  Scheduler : Type;
  Point : Type;
  Id2Node : Type;
  (* model.check_all_points() *)
  check_all_points : StateDict -> bool * option Point * option string;
  (* str(point) *)
  str_point : Point -> string;
  (* self.model(batch) *)
  forward : StateDict -> Tensor -> list Q;
  (* AverageDistortionLoss().calculate_loss *)
  calculate_loss : list Q -> list Q -> Q;
  (* AverageDistortionMetric().calculate_metric(...).tolist() *)
  calculate_metric : list Q -> list Q -> list Q;
  (* (loss / grad_accum_steps).backward(): adds to the gradients *)
  backward : StateDict -> Tensor -> Z -> Gradients -> Gradients;
  (* the gradients after zero_grad() *)
  zero_gradients : Gradients;
  (* model.embeddings.embeds.grad.detach().data.norm(2).item() *)
  grad_norm : Gradients -> Q;
  (* clip_grad_norm_(model.parameters(), max_norm) *)
  clip_grad_norm : Q -> Gradients -> Gradients;
  (* optimizer.step() *)
  optimizer_step : Optimizer -> StateDict -> Gradients -> Optimizer * StateDict;
  (* param_groups[0]['lr'] *)
  get_lr : Optimizer -> Q;
  (* scheduler.step(metric): may change the learning rate *)
  scheduler_step : Scheduler -> Q -> Optimizer -> Scheduler * Optimizer;
  (* model.embeds_norm().mean().item() *)
  embeds_norm_mean : StateDict -> Q;
  (* model.manifold.projected_points, when the manifold has it *)
  projected_points : StateDict -> option Q;
  (* MeanAveragePrecisionMetric(validate.dataset).calculate_metric *)
  mAP_metric : list (list Q) -> Q;
  (* len(id2node) *)
  len_id2node : Id2Node -> nat
}.

Section Runner.

Context (T : Collaborators).

(** ** Trace *)

Inductive log_message :=
| LogResults (epoch : Z) (train_loss distortion : Q)
| LogBest (distortion : Q) (epoch : Z)
| LogEarlyStopping (epoch : Z)
| LogFinalEvaluation (best_epoch : Z)
| LogFinalResults (distortion precision : Q)
| LogSaving (name : string).

Inductive event :=
| CheckAllPoints
| ModelTrain
| ModelEval
| ModelZeroGrad
| OptimizerZeroGrad
| Forward (batch : Tensor)
| CalculateLoss (value : Q)
| Backward
| ClipGradNorm (max_norm : Q)
| OptimizerStep
| SchedulerStep (metric : Q)
| AddScalar (tag : string) (value : Q) (step : Z)
| LogInfo (msg : log_message)
| TorchSave (name : string) (model_state : StateDict T) (nodes : Id2Node T)
| LoadStateDict
| WriteResults (file : string) (row : result_data)
| WriterClose.

(** ** The mutable state and the monad *)

Record machine := {
  model_state : StateDict T;
  model_grads : Gradients T;
  optimizer_state : Optimizer T;
  scheduler_state : Scheduler T;
  trace : list event
}.

Definition M (A : Type) := machine -> result A * machine.

Definition ret {A : Type} (a : A) : M A := fun s => (Ok a, s).

Definition bind {A B : Type} (m : M A) (f : A -> M B) : M B :=
  fun s => match m s with
           | (Ok a, s') => f a s'
           | (Raise e, s') => (Raise e, s')
           end.

Definition raise {A : Type} (e : exn) : M A := fun s => (Raise e, s).

Definition lift {A : Type} (r : result A) : M A := fun s => (r, s).

Definition get : M machine := fun s => (Ok s, s).

Definition emit (e : event) : M unit :=
  fun s => (Ok tt, {| model_state := model_state s;
                      model_grads := model_grads s;
                      optimizer_state := optimizer_state s;
                      scheduler_state := scheduler_state s;
                      trace := trace s ++ [e] |}).

Definition set_model (m : StateDict T) : M unit :=
  fun s => (Ok tt, {| model_state := m;
                      model_grads := model_grads s;
                      optimizer_state := optimizer_state s;
                      scheduler_state := scheduler_state s;
                      trace := trace s |}).

Definition set_grads (g : Gradients T) : M unit :=
  fun s => (Ok tt, {| model_state := model_state s;
                      model_grads := g;
                      optimizer_state := optimizer_state s;
                      scheduler_state := scheduler_state s;
                      trace := trace s |}).

Definition set_optimizer (o : Optimizer T) : M unit :=
  fun s => (Ok tt, {| model_state := model_state s;
                      model_grads := model_grads s;
                      optimizer_state := o;
                      scheduler_state := scheduler_state s;
                      trace := trace s |}).

Definition set_scheduler (c : Scheduler T) : M unit :=
  fun s => (Ok tt, {| model_state := model_state s;
                      model_grads := model_grads s;
                      optimizer_state := optimizer_state s;
                      scheduler_state := c;
                      trace := trace s |}).

Notation "x <- m ;; k" := (bind m (fun x => k))
  (at level 61, m at next level, right associativity).
Notation "m ;;; k" := (bind m (fun _ => k))
  (at level 61, right associativity).

Definition when (b : bool) (m : M unit) : M unit := if b then m else ret tt.

(** ** The runner *)

(** The fields of [self] that are fixed during a run.  [train e] is the list
    of batches the random sampler yields in epoch [e]; [validate] is the list
    of batches in sequential order. *)
Record Runner := {
  id2node : Id2Node T;
  train : Z -> list Tensor;
  validate : list Tensor;
  args : Args
}.

Context (self : Runner).

Definition opt_str (o : option string) : string :=
  match o with
  | Some s => s
  | None => "None"
  end.

Definition newline : string := String (Ascii.ascii_of_nat 10) EmptyString.

(** [f"Point outside manifold. Reason: {reason}\n{outside_point}"], for the
    point as [str] renders it. *)
Definition outside_manifold_message (reason outside_point : option string) : string :=
  ("Point outside manifold. Reason: " ++ opt_str reason ++ newline
   ++ opt_str outside_point)%string.

(** [check_points_in_manifold] *)
Definition check_points_in_manifold : M unit :=
  s <- get ;;
  emit CheckAllPoints ;;;
  let '(all_points_ok, outside_point, reason) := check_all_points T (model_state s) in
  if negb all_points_ok
  then raise (AssertionError
                (outside_manifold_message reason
                   (option_map (str_point T) outside_point)))
  else ret tt.

(** The gradient update of [train_epoch], lines 101-104. *)
Definition update : M unit :=
  s <- get ;;
  emit (ClipGradNorm (max_grad_norm (args self))) ;;;
  let g := clip_grad_norm T (max_grad_norm (args self)) (model_grads s) in
  set_grads g ;;;
  emit OptimizerStep ;;;
  let '(o, m) := optimizer_step T (optimizer_state s) (model_state s) g in
  set_optimizer o ;;;
  set_model m ;;;
  emit ModelZeroGrad ;;;
  set_grads (zero_gradients T) ;;;
  emit OptimizerZeroGrad ;;;
  set_grads (zero_gradients T).

(** One pass of the batch loop of [train_epoch] for the batch at index
    [step]; [stats] is [(tr_loss, avg_grad_norm)]. *)
Definition train_batch (step : Z) (batch_points : Tensor) (stats : Q * Q) : M (Q * Q) :=
  s <- get ;;
  emit (Forward batch_points) ;;;
  let manifold_distances := forward T (model_state s) batch_points in
  let graph_distances := last_column batch_points in
  let loss := calculate_loss T graph_distances manifold_distances in
  emit (CalculateLoss loss) ;;;
  let loss := (loss / inject_Z (grad_accum_steps (args self)))%Q in
  emit Backward ;;;
  let g := backward T (model_state s) batch_points (grad_accum_steps (args self))
             (model_grads s) in
  set_grads g ;;;
  let tr_loss := (fst stats + loss)%Q in
  let avg_grad_norm := (snd stats + grad_norm T g)%Q in
  r <- lift (py_mod (step + 1) (grad_accum_steps (args self))) ;;
  when (r =? 0) update ;;;
  ret (tr_loss, avg_grad_norm).

(** [for step, batch in enumerate(train_split)], from index [step] on. *)
Fixpoint train_batches (step : Z) (batches : list Tensor) (stats : Q * Q) : M (Q * Q) :=
  match batches with
  | [] => ret stats
  | batch :: rest =>
      stats' <- train_batch step batch stats ;;
      train_batches (step + 1) rest stats'
  end.

(** [train_epoch] *)
Definition train_epoch (train_split : list Tensor) (epoch_num : Z) : M Q :=
  check_points_in_manifold ;;;
  emit ModelTrain ;;;
  emit ModelZeroGrad ;;;
  set_grads (zero_gradients T) ;;;
  emit OptimizerZeroGrad ;;;
  set_grads (zero_gradients T) ;;;
  stats <- train_batches 0 train_split (0%Q, 0%Q) ;;
  avg <- lift (py_div (snd stats) (len train_split)) ;;
  emit (AddScalar "grad_norm/avg" avg epoch_num) ;;;
  lift (py_div (fst stats) (len train_split)).

(** One pass of the loop of [evaluate]. *)
Definition evaluate_batch (batch_points : Tensor) (total_distortion : list Q) : M (list Q) :=
  s <- get ;;
  emit (Forward batch_points) ;;;
  let manifold_distances := forward T (model_state s) batch_points in
  let graph_distances := last_column batch_points in
  let distortion := calculate_metric T graph_distances manifold_distances in
  ret (total_distortion ++ distortion).

Fixpoint evaluate_batches (batches : list Tensor) (total_distortion : list Q) : M (list Q) :=
  match batches with
  | [] => ret total_distortion
  | batch :: rest =>
      total' <- evaluate_batch batch total_distortion ;;
      evaluate_batches rest total'
  end.

(** [evaluate] *)
Definition evaluate (eval_split : list Tensor) : M Q :=
  emit ModelEval ;;;
  total_distortion <- evaluate_batches eval_split [] ;;
  lift (mean total_distortion).

(** [torch.arange(0, n)] *)
Definition arange (n : nat) : list Z := map Z.of_nat (seq 0 n).

(** The loop of [build_distance_matrix]: the row of every node id. *)
Fixpoint distance_rows (all_nodes : list Z) (node_ids : list Z) (matrix : list (list Q))
  : M (list (list Q)) :=
  match node_ids with
  | [] => ret matrix
  | node_id :: rest =>
      s <- get ;;
      let batch := map (fun dst => [inject_Z node_id; inject_Z dst]) all_nodes in
      emit (Forward batch) ;;;
      distance_rows all_nodes rest (matrix ++ [forward T (model_state s) batch])
  end.

(** [build_distance_matrix] *)
Definition build_distance_matrix : M (list (list Q)) :=
  let all_nodes := arange (len_id2node T (id2node self)) in
  emit ModelEval ;;;
  distance_rows all_nodes all_nodes [].

(** [calculate_mAP] *)
Definition calculate_mAP : M Q :=
  distance_matrix <- build_distance_matrix ;;
  ret (mAP_metric T distance_matrix).

(** The name of a checkpoint under the checkpoint directory. *)
Definition checkpoint_name (epoch : Z) : string :=
  (run_id (args self) ++ "-best-" ++ str_int epoch ++ "ep")%string.

(** [save_model] *)
Definition save_model (epoch : Z) : M unit :=
  let save_path := checkpoint_name epoch in
  emit (LogInfo (LogSaving save_path)) ;;;
  s <- get ;;
  emit (TorchSave save_path (model_state s) (id2node self)).

(** [export_results] *)
Definition export_results (avg_distortion avg_precision : Q) : M unit :=
  let manifold := model (args self) in
  let dims := dims (args self) in
  let dims := if (manifold =? "upper")%string || (manifold =? "bounded")%string
              then dims * (dims + 1) else dims in
  let result_data := {| rd_data := data (args self);
                        rd_dims := dims;
                        rd_manifold := manifold;
                        rd_run_id := run_id (args self);
                        rd_distortion := (avg_distortion * 100)%Q;
                        rd_mAP := (avg_precision * 100)%Q |} in
  emit (WriteResults (results_file (args self)) result_data).

(** [model.load_state_dict]: replaces the state of the model; an argument that
    is no mapping, as [None], is rejected. *)
Definition load_state_dict (state : option (StateDict T)) : M unit :=
  emit LoadStateDict ;;;
  match state with
  | Some m => set_model m
  | None => raise TypeError
  end.

(** The local variables of [run]. *)
Record locals := {
  best_distortion : pyfloat;
  best_epoch : Z;
  best_model_state : option (StateDict T)
}.

Definition initial_locals : locals :=
  {| best_distortion := PosInf; best_epoch := -1; best_model_state := None |}.

(** Lines 53-57 of [run]: the update of the best model.  The deep copy of
    the state is the value the state has at that moment. *)
Definition track_best (epoch : Z) (distortion : Q) (l : locals) : M locals :=
  if lt_float distortion (best_distortion l)
  then
    emit (LogInfo (LogBest distortion epoch)) ;;;
    s <- get ;;
    ret {| best_distortion := Finite distortion;
           best_epoch := epoch;
           best_model_state := Some (model_state s) |}
  else ret l.

(** Lines 47-62 of [run]: the body of [if epoch % val_every == 0].  The
    boolean says whether the loop is left by [break]. *)
Definition validation (epoch : Z) (train_loss : Q) (l : locals) : M (locals * bool) :=
  distortion <- evaluate (validate self) ;;
  emit (AddScalar "val/distortion" distortion epoch) ;;;
  emit (LogInfo (LogResults epoch train_loss distortion)) ;;;
  s <- get ;;
  emit (SchedulerStep distortion) ;;;
  let '(c, o) := scheduler_step T (scheduler_state s) distortion (optimizer_state s) in
  set_scheduler c ;;;
  set_optimizer o ;;;
  l' <- track_best epoch distortion l ;;
  if patience (args self) * 3 <=? epoch - best_epoch l'
  then emit (LogInfo (LogEarlyStopping epoch)) ;;; ret (l', true)
  else ret (l', false).

(** Lines 35-62 of [run]: the body of the epoch loop. *)
Definition epoch_body (epoch : Z) (l : locals) : M (locals * bool) :=
  train_loss <- train_epoch (train self epoch) epoch ;;
  emit (AddScalar "train/loss" train_loss epoch) ;;;
  s <- get ;;
  emit (AddScalar "train/lr" (get_lr T (optimizer_state s)) epoch) ;;;
  emit (AddScalar "embeds/avg_norm" (embeds_norm_mean T (model_state s)) epoch) ;;;
  match projected_points T (model_state s) with
  | Some v => emit (AddScalar "train/projected_points" v epoch)
  | None => ret tt
  end ;;;
  r <- lift (py_mod epoch (save_epochs (args self))) ;;
  when (r =? 0) (save_model epoch) ;;;
  r <- lift (py_mod epoch (val_every (args self))) ;;
  if r =? 0 then validation epoch train_loss l else ret (l, false).

(** Lines 64-73 of [run]: what follows the loop. *)
Definition finalize (l : locals) : M unit :=
  emit (LogInfo (LogFinalEvaluation (best_epoch l))) ;;;
  load_state_dict (best_model_state l) ;;;
  distortion <- evaluate (validate self) ;;
  precision <- calculate_mAP ;;
  export_results distortion precision ;;;
  emit (LogInfo (LogFinalResults distortion precision)) ;;;
  save_model (best_epoch l) ;;;
  emit WriterClose.

(** [for epoch in trange(epoch, epoch + n)], lines 34-62 of [run]: the loop
    over [n] epochs from [epoch] on, left early when the body says [break];
    it returns the locals. *)
Fixpoint for_epochs (n : nat) (epoch : Z) (l : locals) : M locals :=
  match n with
  | O => ret l
  | S n' =>
      x <- epoch_body epoch l ;;
      if snd x then ret (fst x) else for_epochs n' (epoch + 1) (fst x)
  end.

(** [run] *)
Definition run : M unit :=
  l <- for_epochs (Z.to_nat (epochs (args self))) 1 initial_locals ;;
  finalize l.

(** Where the epoch loop stands: still running, left by [break] in the given
    epoch, or ended by an exception. *)
Inductive control :=
| Running (l : locals)
| Stopped (epoch : Z) (l : locals)
| Failed (e : exn).

(** The points of a run: the loop [for epoch in trange(1, ...)] after [k]
    passes through its body, from the locals [l0] and the state [s0].  Once
    the loop has been left, by [break] or by an exception, further passes do
    nothing.  [for_epochs_loop_after] below relates it to [for_epochs]. *)
Fixpoint loop_after (k : nat) (l0 : locals) (s0 : machine) : control * machine :=
  match k with
  | O => (Running l0, s0)
  | S k' =>
      match loop_after k' l0 s0 with
      | (Running l, s) =>
          match epoch_body (Z.of_nat (S k')) l s with
          | (Ok (l', false), s') => (Running l', s')
          | (Ok (l', true), s') => (Stopped (Z.of_nat (S k')) l', s')
          | (Raise e, s') => (Failed e, s')
          end
      | other => other
      end
  end.

End Runner.

Arguments model_state {T} m.
Arguments model_grads {T} m.
Arguments optimizer_state {T} m.
Arguments scheduler_state {T} m.
Arguments trace {T} m.
Arguments best_distortion {T} l.
Arguments best_epoch {T} l.
Arguments best_model_state {T} l.
Arguments id2node {T} r.
Arguments train {T} r e.
Arguments validate {T} r.
Arguments args {T} r.
Arguments ret {T A} a s.
Arguments bind {T A B} m f s.
Arguments raise {T A} e s.
Arguments lift {T A} r s.
Arguments get {T} s.
Arguments emit {T} e s.
Arguments set_model {T} m s.
Arguments set_grads {T} g s.
Arguments set_optimizer {T} o s.
Arguments set_scheduler {T} c s.
Arguments when {T} b m s.
Arguments check_points_in_manifold {T} s.
Arguments update {T} self s.
Arguments train_batch {T} self step batch_points stats s.
Arguments train_batches {T} self step batches stats s.
Arguments train_epoch {T} self train_split epoch_num s.
Arguments evaluate_batch {T} batch_points total_distortion s.
Arguments evaluate_batches {T} batches total_distortion s.
Arguments evaluate {T} eval_split s.
Arguments distance_rows {T} all_nodes node_ids matrix s.
Arguments build_distance_matrix {T} self s.
Arguments calculate_mAP {T} self s.
Arguments checkpoint_name {T} self epoch.
Arguments save_model {T} self epoch s.
Arguments export_results {T} self avg_distortion avg_precision s.
Arguments load_state_dict {T} state s.
Arguments initial_locals {T}.
Arguments track_best {T} epoch distortion l s.
Arguments validation {T} self epoch train_loss l s.
Arguments epoch_body {T} self epoch l s.
Arguments Running {T} l.
Arguments Stopped {T} epoch l.
Arguments Failed {T} e.
Arguments loop_after {T} self k l0 s0.
Arguments for_epochs {T} self n epoch l s.
Arguments finalize {T} self l s.
Arguments run {T} self s0.
Arguments CheckAllPoints {T}.
Arguments ModelTrain {T}.
Arguments ModelEval {T}.
Arguments ModelZeroGrad {T}.
Arguments OptimizerZeroGrad {T}.
Arguments Forward {T} batch.
Arguments CalculateLoss {T} value.
Arguments Backward {T}.
Arguments ClipGradNorm {T} max_norm.
Arguments OptimizerStep {T}.
Arguments SchedulerStep {T} metric.
Arguments AddScalar {T} tag value step.
Arguments LogInfo {T} msg.
Arguments TorchSave {T} name model_state nodes.
Arguments LoadStateDict {T}.
Arguments WriteResults {T} file row.
Arguments WriterClose {T}.

(** ** A small instance

    A model whose state is the number of optimizer steps taken so far, with a
    prescribed distortion for every such state; it becomes invalid once its
    state reaches [limit]. *)
Definition toy (profile : Z -> Q) (limit : Z) : Collaborators :=
  {| StateDict := Z;
     Gradients := Z;
     Optimizer := Z;
     Scheduler := list Q;
     Point := Z;
     Id2Node := list string;
     check_all_points := fun m =>
       if m <? limit then (true, None, None)
       else (false, Some m, Some "norm above bound");
     str_point := str_int;
     forward := fun m batch => map (fun _ => profile m) batch;
     calculate_loss := fun g d => Qsum d;
     calculate_metric := fun g d => d;
     backward := fun m batch accum g => g + len batch;
     zero_gradients := 0;
     grad_norm := fun g => inject_Z g;
     clip_grad_norm := fun mx g => g;
     optimizer_step := fun o m g => (o + g, m + 1);
     get_lr := fun o => 1%Q;
     scheduler_step := fun c d o => (d :: c, o);
     embeds_norm_mean := fun m => inject_Z m;
     projected_points := fun m => None;
     mAP_metric := fun matrix => (1 # 2)%Q;
     len_id2node := fun nodes => List.length nodes |}.

Definition toy_args (n accum save val pat : Z) (kind : string) : Args :=
  {| batch_size := 5;
     epochs := n;
     grad_accum_steps := accum;
     max_grad_norm := 1%Q;
     save_epochs := save;
     val_every := val;
     patience := pat;
     model := kind;
     dims := 3;
     data := "grid";
     run_id := "r1";
     results_file := "out.csv" |}.

(** A batch of five triplets: node [k + i], its successor, distance 1. *)
Definition toy_batch (k : Z) : Tensor :=
  map (fun i => [inject_Z (k + i); inject_Z (k + i + 1); 1%Q]) [0; 1; 2; 3; 4].

(** A runner over ten triplets in two batches of five, trained in the order
    second batch, first batch. *)
Definition toy_runner (profile : Z -> Q) (limit : Z) (a : Args) : Runner (toy profile limit) :=
  Build_Runner (toy profile limit)
    ["a"; "b"; "c"]
    (fun e => [toy_batch 5; toy_batch 0])
    [toy_batch 0; toy_batch 5]
    a.

(** A model whose distortion is 1 in every state. *)
Definition flat_profile (m : Z) : Q := 1%Q.

(** A model whose distortion is 3 until four optimizer steps were taken,
    2 then, and 5 from eight steps on. *)
Definition dip_profile (m : Z) : Q :=
  if m <? 4 then 3%Q else if m <? 8 then 2%Q else 5%Q.

(** Three batches of five, for epochs with a trailing partial window. *)
Definition three_batches : list Tensor := [toy_batch 0; toy_batch 5; toy_batch 10].

(** The state a run starts from: nothing traced yet. *)
Definition boot {T : Collaborators} (m : StateDict T) (g : Gradients T)
    (o : Optimizer T) (c : Scheduler T) : machine T :=
  {| model_state := m; model_grads := g; optimizer_state := o;
     scheduler_state := c; trace := [] |}.

(** ** What a trace tells *)

Section Observations.

Context {T : Collaborators}.

Definition is_optimizer_step (e : event T) : bool :=
  match e with
  | OptimizerStep => true
  | _ => false
  end.

(** The number of [optimizer.step()] calls in a trace. *)
Definition optimizer_steps (tr : list (event T)) : Z :=
  len (filter is_optimizer_step tr).

(** The values [calculate_loss] returned, in order. *)
Definition batch_losses (tr : list (event T)) : list Q :=
  flat_map (fun e => match e with
                     | CalculateLoss v => [v]
                     | _ => []
                     end) tr.

(** The [train/loss] series of the telemetry: epoch and value. *)
Definition train_loss_series (tr : list (event T)) : list (Z * Q) :=
  flat_map (fun e => match e with
                     | AddScalar tag v ep =>
                         if (tag =? "train/loss")%string then [(ep, v)] else []
                     | _ => []
                     end) tr.

(** The [val/distortion] series of the telemetry: epoch and value. *)
Definition val_history (tr : list (event T)) : list (Z * Q) :=
  flat_map (fun e => match e with
                     | AddScalar tag v ep =>
                         if (tag =? "val/distortion")%string then [(ep, v)] else []
                     | _ => []
                     end) tr.

Definition is_store_write (e : event T) : bool :=
  match e with
  | TorchSave _ _ _ => true
  | WriteResults _ _ => true
  | _ => false
  end.

(** What was written to the checkpoint store and to the results store. *)
Definition store_writes (tr : list (event T)) : list (event T) :=
  filter is_store_write tr.

(** The events of one gradient update. *)
Definition update_events (max_norm : Q) : list (event T) :=
  [ClipGradNorm max_norm; OptimizerStep; ModelZeroGrad; OptimizerZeroGrad].

(** The events of the batch at index [step], whose loss is [loss]. *)
Definition batch_events (accum : Z) (max_norm : Q) (step : Z) (batch : Tensor) (loss : Q)
  : list (event T) :=
  [Forward batch; CalculateLoss loss; Backward]
  ++ (if (step + 1) mod accum =? 0 then update_events max_norm else []).

(** The events of the batches from index [step] on. *)
Fixpoint batches_events (accum : Z) (max_norm : Q) (step : Z)
    (batches : list Tensor) (losses : list Q) : list (event T) :=
  match batches, losses with
  | batch :: batches', loss :: losses' =>
      batch_events accum max_norm step batch loss
      ++ batches_events accum max_norm (step + 1) batches' losses'
  | _, _ => []
  end.

(** The state with other gradients. *)
Definition with_grads (g : Gradients T) (s : machine T) : machine T :=
  {| model_state := model_state s; model_grads := g;
     optimizer_state := optimizer_state s;
     scheduler_state := scheduler_state s; trace := trace s |}.

(** The state with some more events traced. *)
Definition traced (evs : list (event T)) (s : machine T) : machine T :=
  {| model_state := model_state s; model_grads := model_grads s;
     optimizer_state := optimizer_state s;
     scheduler_state := scheduler_state s; trace := trace s ++ evs |}.

(** A computation keeps the relation [R] between the state it starts from and
    the state it ends in, whether it returns or raises. *)
Definition preserves (R : machine T -> machine T -> Prop) {A : Type} (m : M T A) : Prop :=
  forall s r s', m s = (r, s') -> R s s'.

(** The trace grows, and only by events of the class [E]. *)
Definition emits_only (E : event T -> bool) (s s' : machine T) : Prop :=
  exists evs, trace s' = trace s ++ evs /\ forallb E evs = true.

(** Model, optimizer and scheduler are as they were. *)
Definition same_parameters (s s' : machine T) : Prop :=
  model_state s' = model_state s
  /\ optimizer_state s' = optimizer_state s
  /\ scheduler_state s' = scheduler_state s.

(** The trace grows by events of the class [E]; nothing else changes. *)
Definition traces_only (E : event T -> bool) (s s' : machine T) : Prop :=
  exists evs, s' = traced evs s /\ forallb E evs = true.

Definition is_write_results (e : event T) : bool :=
  match e with
  | WriteResults _ _ => true
  | _ => false
  end.

(** The rows handed to the results store. *)
Definition results_written (tr : list (event T)) : list (event T) :=
  filter is_write_results tr.

Definition not_result (e : event T) : bool := negb (is_write_results e).

Definition not_store (e : event T) : bool := negb (is_store_write e).

(** Neither a write to a store nor a point of the [val/distortion] series. *)
Definition routine (e : event T) : bool :=
  not_store e
  && match e with
     | AddScalar tag _ _ => negb (tag =? "val/distortion")%string
     | _ => true
     end.

(** The events of an evaluation pass. *)
Definition eval_event (e : event T) : bool :=
  match e with
  | ModelEval => true
  | Forward _ => true
  | _ => false
  end.

(** The calls of a training epoch on the model and the optimizer. *)
Definition training_call (e : event T) : bool :=
  match e with
  | CheckAllPoints | ModelTrain | ModelZeroGrad | OptimizerZeroGrad
  | Forward _ | CalculateLoss _ | Backward | ClipGradNorm _ | OptimizerStep => true
  | _ => false
  end.


(** The events [train_epoch] starts with. *)
Definition prologue_events : list (event T) :=
  [CheckAllPoints; ModelTrain; ModelZeroGrad; OptimizerZeroGrad].

(** The distortions of the pairs of a batch under the model state [m]. *)
Definition batch_distortions (m : StateDict T) (batch : Tensor) : list Q :=
  calculate_metric T (last_column batch) (forward T m batch).

(** The distortions of all pairs of a split, batch after batch. *)
Definition split_distortions (m : StateDict T) (split : list Tensor) : list Q :=
  flat_map (batch_distortions m) split.

(** The pairs of [node_id] with every node. *)
Definition node_pairs (all_nodes : list Z) (node_id : Z) : Tensor :=
  map (fun dst => [inject_Z node_id; inject_Z dst]) all_nodes.

(** The distance matrix under the model state [m]. *)
Definition distance_matrix_of (m : StateDict T) (all_nodes : list Z) : list (list Q) :=
  map (fun node_id => forward T m (node_pairs all_nodes node_id)) all_nodes.

(** The events of [calculate_mAP]. *)
Definition mAP_events (all_nodes : list Z) : list (event T) :=
  ModelEval :: map (fun node_id => Forward (node_pairs all_nodes node_id)) all_nodes.

(** The events of [evaluate]. *)
Definition evaluate_events (split : list Tensor) : list (event T) :=
  ModelEval :: map Forward split.

(** The locals after a validation with distortion [d] at [epoch], the model
    being in state [m]. *)
Definition new_best (epoch : Z) (d : Q) (m : StateDict T) (l : locals T) : locals T :=
  if lt_float d (best_distortion l)
  then {| best_distortion := Finite d; best_epoch := epoch; best_model_state := Some m |}
  else l.

(** The early-stopping test of [run]. *)
Definition early_stop (pat epoch : Z) (l : locals T) : bool :=
  pat * 3 <=? epoch - best_epoch l.

(** The last epoch whose body was entered, after [k] passes. *)
Definition last_epoch (k : nat) (c : control T) : Z :=
  match c with
  | Stopped e _ => e
  | _ => Z.of_nat k
  end.

(** The locals of a loop that has not failed. *)
Definition locals_of (c : control T) : option (locals T) :=
  match c with
  | Running l => Some l
  | Stopped _ l => Some l
  | Failed _ => None
  end.

End Observations.

Section Shapes.

Context {T : Collaborators} (self : Runner T).

(** The events of [save_model] for the model state [m]. *)
Definition save_events (epoch : Z) (m : StateDict T) : list (event T) :=
  [LogInfo (LogSaving (checkpoint_name self epoch));
   TorchSave (checkpoint_name self epoch) m (id2node self)].

(** The events of an epoch between training and validation; [s1] is the
    state training ended in and [v] the training loss. *)
Definition after_training_events (epoch : Z) (v : Q) (s1 : machine T) : list (event T) :=
  [AddScalar "train/loss" v epoch;
   AddScalar "train/lr" (get_lr T (optimizer_state s1)) epoch;
   AddScalar "embeds/avg_norm" (embeds_norm_mean T (model_state s1)) epoch]
  ++ match projected_points T (model_state s1) with
     | Some p => [AddScalar "train/projected_points" p epoch]
     | None => []
     end
  ++ (if epoch mod save_epochs (args self) =? 0
      then save_events epoch (model_state s1) else []).

(** The events of a validation with distortion [d]. *)
Definition validation_events (epoch : Z) (v d : Q) (m : StateDict T) (l : locals T)
  : list (event T) :=
  evaluate_events (validate self)
  ++ [AddScalar "val/distortion" d epoch;
      LogInfo (LogResults epoch v d);
      SchedulerStep d]
  ++ (if lt_float d (best_distortion l) then [LogInfo (LogBest d epoch)] else [])
  ++ (if early_stop (patience (args self)) epoch (new_best epoch d m l)
      then [LogInfo (LogEarlyStopping epoch)] else []).

(** The checkpoint written in [epoch], if it is one of the [save_epochs];
    [m] is the model state at the end of the epoch. *)
Definition periodic_checkpoint (epoch : Z) (m : StateDict T) : list (event T) :=
  if epoch mod save_epochs (args self) =? 0
  then [TorchSave (checkpoint_name self epoch) m (id2node self)]
  else [].

(** The events of what follows the loop, for the snapshot [m], the final
    distortion [d] and the row [row]. *)
Definition final_events (l : locals T) (m : StateDict T) (d : Q) (row : result_data)
  : list (event T) :=
  [LogInfo (LogFinalEvaluation (best_epoch l)); LoadStateDict]
  ++ evaluate_events (validate self)
  ++ mAP_events (arange (len_id2node T (id2node self)))
  ++ [WriteResults (results_file (args self)) row;
      LogInfo (LogFinalResults d
                 (mAP_metric T (distance_matrix_of m
                                  (arange (len_id2node T (id2node self))))))]
  ++ save_events (best_epoch l) m
  ++ [WriterClose].

End Shapes.

(** [sub] occurs in [s]. *)
Definition contains (sub s : string) : Prop :=
  exists pre post, s = (pre ++ sub ++ post)%string.

(** The batches of an epoch that fill complete accumulation windows. *)
Definition complete_windows (accum : Z) (batches : list Tensor) : list Tensor :=
  firstn (Z.to_nat (accum * (len batches / accum))) batches.

(** The first validated epoch at which [3 * pat] epochs have passed since the
    validated epoch [best], when validation runs every [val] epochs. *)
Definition stop_epoch (val pat best : Z) : Z :=
  best + val * ((3 * pat + val - 1) / val).

(** [1; ...; n] *)
Definition epochs_upto (n : Z) : list Z := map Z.of_nat (seq 1 (Z.to_nat n)).

(** ** More of what a trace tells *)

Section MoreObservations.

Context {T : Collaborators}.

(** The metrics [scheduler.step] was called with, in order. *)
Definition scheduler_metrics (tr : list (event T)) : list Q :=
  flat_map (fun e => match e with
                     | SchedulerStep d => [d]
                     | _ => []
                     end) tr.

(** The number of forward passes in a trace. *)
Definition forward_passes (tr : list (event T)) : nat :=
  List.length (filter (fun e => match e with
                                | Forward _ => true
                                | _ => false
                                end) tr).

(** The events of [train_epoch] over [batches] with the losses [losses] and
    the mean gradient norm [avg]. *)
Definition training_events (accum : Z) (max_norm : Q) (batches : list Tensor)
    (losses : list Q) (avg : Q) (epoch : Z) : list (event T) :=
  prologue_events ++ batches_events accum max_norm 0 batches losses
  ++ [AddScalar "grad_norm/avg" avg epoch].

(** The scalars [run] writes after the training of an epoch; [s1] is the
    state training ended in and [v] the training loss. *)
Definition scalar_events (epoch : Z) (v : Q) (s1 : machine T) : list (event T) :=
  [AddScalar "train/loss" v epoch;
   AddScalar "train/lr" (get_lr T (optimizer_state s1)) epoch;
   AddScalar "embeds/avg_norm" (embeds_norm_mean T (model_state s1)) epoch]
  ++ match projected_points T (model_state s1) with
     | Some p => [AddScalar "train/projected_points" p epoch]
     | None => []
     end.

(** The gradients after the backward passes of [batches], one after the
    other, under the model state [m], from the gradients [g]. *)
Definition accumulated_grads (accum : Z) (m : StateDict T) (batches : list Tensor)
    (g : Gradients T) : Gradients T :=
  fold_left (fun g' batch => backward T m batch accum g') batches g.

End MoreObservations.

(** ** The aggregation of results (src/nodeprores.py)

    Run ids are strings of characters with code points below 256.  [None]
    stands for the [IndexError] of an index out of range. *)

(** [c.isdigit()] of a character: the decimal digits, and the superscript
    digits two, three and one. *)
Definition isdigit (c : Ascii.ascii) : bool :=
  let n := Ascii.nat_of_ascii c in
  ((48 <=? n)%nat && (n <=? 57)%nat)
  || (n =? 178)%nat || (n =? 179)%nat || (n =? 185)%nat.

(** [x[-k]] for [k = 1, 2, ...]: the [k]-th character from the end. *)
Definition char_from_end (x : string) (k : nat) : option Ascii.ascii :=
  nth_error (rev (list_ascii_of_string x)) (k - 1).

(** [x[:-2]] *)
Definition drop_last_two (x : string) : string :=
  string_of_list_ascii (rev (skipn 2 (rev (list_ascii_of_string x)))).

(** [lambda x: x[:-2] if x[-1].isdigit() and x[-2] == "-" else x], line 23 of
    [process_one_result_file]. *)
Definition remove_run_number (x : string) : option string :=
  match char_from_end x 1 with
  | None => None
  | Some last =>
      if isdigit last
      then match char_from_end x 2 with
           | None => None
           | Some before =>
               if Ascii.eqb before "-"%char then Some (drop_last_two x) else Some x
           end
      else Some x
  end.


(** * Properties *)

(** ** Rationals and integers *)

Lemma Qlt_bool_iff (x y : Q) : Qlt_bool x y = true <-> (x < y)%Q.
Proof. unfold Qlt_bool, Qlt. apply Z.ltb_lt. Qed.

Lemma Qlt_bool_false (x y : Q) : Qlt_bool x y = false <-> (y <= x)%Q.
Proof. unfold Qlt_bool, Qle. rewrite Z.ltb_ge. reflexivity. Qed.

Lemma Qsum_app (l1 l2 : list Q) : (Qsum (l1 ++ l2) == Qsum l1 + Qsum l2)%Q.
Proof.
  induction l1 as [|x l1 IH]; simpl.
  - ring.
  - rewrite IH. ring.
Qed.

Lemma len_app {A : Type} (l1 l2 : list A) : len (l1 ++ l2) = len l1 + len l2.
Proof. unfold len. rewrite length_app. lia. Qed.

Lemma len_cons {A : Type} (x : A) (l : list A) : len (x :: l) = len l + 1.
Proof. unfold len. simpl List.length. lia. Qed.

Lemma len_nonneg {A : Type} (l : list A) : 0 <= len l.
Proof. unfold len. lia. Qed.

(** With a positive modulus, the quotient of [i + 1] is one more than the
    quotient of [i] exactly when the modulus divides [i + 1]. *)
Lemma div_succ (i n : Z) :
  0 < n ->
  (i + 1) / n = i / n + (if (i + 1) mod n =? 0 then 1 else 0).
Proof.
  intros Hn.
  pose proof (Z.div_mod i n ltac:(lia)) as Hi.
  pose proof (Z.mod_pos_bound i n Hn) as Hb.
  pose proof (Z.div_mod (i + 1) n ltac:(lia)) as Hi1.
  pose proof (Z.mod_pos_bound (i + 1) n Hn) as Hb1.
  destruct ((i + 1) mod n =? 0) eqn:E.
  - apply Z.eqb_eq in E. nia.
  - apply Z.eqb_neq in E. nia.
Qed.

(** Past the last multiple of [n] below [B], no [i + 1 <= B] is a multiple. *)
Lemma past_last_multiple (n B i : Z) :
  0 < n ->
  n * (B / n) <= i < B ->
  (i + 1) mod n <> 0.
Proof.
  intros Hn Hi Hmod.
  pose proof (Z.div_mod B n ltac:(lia)) as HB.
  pose proof (Z.mod_pos_bound B n Hn) as HbB.
  pose proof (Z.div_mod (i + 1) n ltac:(lia)) as Hi1.
  rewrite Hmod, Z.add_0_r in Hi1.
  assert (B / n < (i + 1) / n) by nia.
  assert ((i + 1) / n < B / n + 1) by nia.
  lia.
Qed.

(** Two multiples of [n] in a window shorter than [n] are equal. *)
Lemma multiples_in_window (n a x y : Z) :
  0 < n ->
  x mod n = 0 -> y mod n = 0 ->
  a <= x < a + n -> a <= y < a + n ->
  x = y.
Proof.
  intros Hn Hx Hy Hwx Hwy.
  pose proof (Z.div_mod x n ltac:(lia)) as Dx.
  pose proof (Z.div_mod y n ltac:(lia)) as Dy.
  rewrite Hx, Z.add_0_r in Dx. rewrite Hy, Z.add_0_r in Dy.
  assert (x / n = y / n) by nia.
  congruence.
Qed.

(** [stop_epoch] is the first multiple of [val] from [best + 3 * pat] on. *)
Lemma stop_epoch_spec (val pat best : Z) :
  0 < val ->
  best mod val = 0 ->
  stop_epoch val pat best mod val = 0
  /\ best + 3 * pat <= stop_epoch val pat best < best + 3 * pat + val.
Proof.
  intros Hv Hb. unfold stop_epoch.
  pose proof (Z.div_mod (3 * pat + val - 1) val ltac:(lia)) as D.
  pose proof (Z.mod_pos_bound (3 * pat + val - 1) val Hv) as B.
  split; [|lia].
  rewrite Z.add_mod, Hb, Z.mul_comm, Z.mod_mul by lia.
  reflexivity.
Qed.

Lemma Qsum_map_div (c : Q) (l : list Q) :
  (Qsum (map (fun x => x / c) l) == Qsum l / c)%Q.
Proof.
  induction l as [|x l IH]; cbn [map Qsum].
  - unfold Qdiv. ring.
  - rewrite IH. unfold Qdiv. ring.
Qed.


Lemma string_append_assoc (a b c : string) :
  ((a ++ b) ++ c = a ++ (b ++ c))%string.
Proof. induction a as [|x a IH]; cbn; [reflexivity | now rewrite IH]. Qed.

Lemma string_append_nil_r (a : string) : (a ++ "" = a)%string.
Proof. induction a as [|x a IH]; cbn; [reflexivity | now rewrite IH]. Qed.

(** The message of a manifold violation shows the reason and the point. *)
Lemma outside_manifold_message_contains (reason outside_point : option string) :
  contains (opt_str reason) (outside_manifold_message reason outside_point)
  /\ contains (opt_str outside_point) (outside_manifold_message reason outside_point).
Proof.
  unfold contains, outside_manifold_message. split.
  - exists "Point outside manifold. Reason: ", (newline ++ opt_str outside_point)%string.
    reflexivity.
  - exists ("Point outside manifold. Reason: " ++ opt_str reason ++ newline)%string, "".
    rewrite string_append_nil_r, !string_append_assoc. reflexivity.
Qed.

(** ** The monad *)

Section Frames.

Context {T : Collaborators}.
Context (R : machine T -> machine T -> Prop) `{PreOrder _ R}.

Lemma preserves_ret {A : Type} (a : A) : preserves R (ret a).
Proof. intros s r s' E. inversion E; subst. reflexivity. Qed.

Lemma preserves_raise {A : Type} (e : exn) : preserves R (raise (A:=A) e).
Proof. intros s r s' E. inversion E; subst. reflexivity. Qed.

Lemma preserves_lift {A : Type} (x : result A) : preserves R (lift x).
Proof. intros s r s' E. inversion E; subst. reflexivity. Qed.

Lemma preserves_get : preserves R get.
Proof. intros s r s' E. inversion E; subst. reflexivity. Qed.

Lemma preserves_bind {A B : Type} (m : M T A) (f : A -> M T B) :
  preserves R m -> (forall a, preserves R (f a)) -> preserves R (bind m f).
Proof.
  intros Hm Hf s r s' E. unfold bind in E.
  destruct (m s) as [[a|e] s1] eqn:Em.
  - transitivity s1; [eapply Hm | eapply Hf]; eassumption.
  - inversion E; subst. eapply Hm; eassumption.
Qed.

Lemma preserves_when (b : bool) (m : M T unit) :
  preserves R m -> preserves R (when b m).
Proof. intros Hm. destruct b; simpl; [exact Hm | apply preserves_ret]. Qed.

End Frames.

Section Relations.

Context {T : Collaborators}.

Lemma traced_nil (s : machine T) : traced [] s = s.
Proof. destruct s; unfold traced; simpl. rewrite app_nil_r. reflexivity. Qed.

Lemma traced_traced (evs1 evs2 : list (event T)) (s : machine T) :
  traced evs2 (traced evs1 s) = traced (evs1 ++ evs2) s.
Proof. unfold traced; simpl. rewrite app_assoc. reflexivity. Qed.

#[global] Instance emits_only_preorder (E : event T -> bool) : PreOrder (emits_only E).
Proof.
  split.
  - intros s. exists []. rewrite app_nil_r. auto.
  - intros s1 s2 s3 [evs1 [E1 F1]] [evs2 [E2 F2]].
    exists (evs1 ++ evs2). rewrite E2, E1, app_assoc, forallb_app, F1, F2. auto.
Qed.

#[global] Instance traces_only_preorder (E : event T -> bool) : PreOrder (traces_only E).
Proof.
  split.
  - intros s. exists []. rewrite traced_nil. auto.
  - intros s1 s2 s3 [evs1 [E1 F1]] [evs2 [E2 F2]].
    exists (evs1 ++ evs2). rewrite E2, E1, traced_traced, forallb_app, F1, F2. auto.
Qed.

#[global] Instance same_parameters_preorder : PreOrder (@same_parameters T).
Proof.
  split.
  - intros s. repeat split.
  - intros s1 s2 s3 [A1 [B1 C1]] [A2 [B2 C2]]. unfold same_parameters.
    repeat split; congruence.
Qed.

Lemma traces_only_emits (E : event T -> bool) (s s' : machine T) :
  traces_only E s s' -> emits_only E s s'.
Proof. intros [evs [-> F]]. exists evs. auto. Qed.

Lemma emits_only_weaken (E1 E2 : event T -> bool) (s s' : machine T) :
  (forall e, E1 e = true -> E2 e = true) -> emits_only E1 s s' -> emits_only E2 s s'.
Proof.
  intros HE [evs [Etr F]]. exists evs. split; [exact Etr|].
  rewrite forallb_forall in *. auto.
Qed.

Lemma emits_only_filter (E P : event T -> bool) (s s' : machine T) :
  (forall e, E e = true -> P e = false) ->
  emits_only E s s' -> filter P (trace s') = filter P (trace s).
Proof.
  intros HE [evs [-> F]]. rewrite filter_app.
  assert (filter P evs = []) as ->; [|apply app_nil_r].
  induction evs as [|e evs IH]; simpl in *; [reflexivity|].
  apply andb_prop in F as [Fe F]. rewrite (HE e Fe). auto.
Qed.

Lemma emits_only_flat_map {B : Type} (E : event T -> bool) (f : event T -> list B)
    (s s' : machine T) :
  (forall e, E e = true -> f e = []) ->
  emits_only E s s' -> flat_map f (trace s') = flat_map f (trace s).
Proof.
  intros HE [evs [-> F]]. rewrite flat_map_app.
  assert (flat_map f evs = []) as ->; [|apply app_nil_r].
  induction evs as [|e evs IH]; simpl in *; [reflexivity|].
  apply andb_prop in F as [Fe F]. rewrite (HE e Fe). auto.
Qed.

(** The primitive operations. *)

Lemma emit_emits (E : event T -> bool) (e : event T) :
  E e = true -> preserves (emits_only E) (emit e).
Proof.
  intros He s r s' Eq. inversion Eq; subst. exists [e]. simpl. rewrite He. auto.
Qed.

Lemma emit_traces (E : event T -> bool) (e : event T) :
  E e = true -> preserves (traces_only E) (emit e).
Proof.
  intros He s r s' Eq. inversion Eq; subst. exists [e]. simpl. rewrite He. auto.
Qed.

Lemma set_model_emits (E : event T -> bool) (m : StateDict T) :
  preserves (emits_only E) (set_model m).
Proof. intros s r s' Eq. inversion Eq; subst. exists []. simpl. rewrite app_nil_r. auto. Qed.

Lemma set_grads_emits (E : event T -> bool) (g : Gradients T) :
  preserves (emits_only E) (set_grads g).
Proof. intros s r s' Eq. inversion Eq; subst. exists []. simpl. rewrite app_nil_r. auto. Qed.

Lemma set_optimizer_emits (E : event T -> bool) (o : Optimizer T) :
  preserves (emits_only E) (set_optimizer o).
Proof. intros s r s' Eq. inversion Eq; subst. exists []. simpl. rewrite app_nil_r. auto. Qed.

Lemma set_scheduler_emits (E : event T -> bool) (c : Scheduler T) :
  preserves (emits_only E) (set_scheduler c).
Proof. intros s r s' Eq. inversion Eq; subst. exists []. simpl. rewrite app_nil_r. auto. Qed.

Lemma emit_same_parameters (e : event T) : preserves same_parameters (emit e).
Proof. intros s r s' Eq. inversion Eq; subst. repeat split. Qed.

Lemma set_grads_same_parameters (g : Gradients T) : preserves same_parameters (set_grads g).
Proof. intros s r s' Eq. inversion Eq; subst. repeat split. Qed.

End Relations.

Create HintDb frames.

#[global] Hint Resolve emit_emits emit_traces set_model_emits set_grads_emits
  set_optimizer_emits set_scheduler_emits emit_same_parameters
  set_grads_same_parameters : frames.

(** Splits a goal [preserves R m] along the structure of [m]. *)
Ltac frame :=
  repeat match goal with
  | |- preserves _ (bind _ _) => apply preserves_bind; [typeclasses eauto | | intro]
  | |- preserves _ (ret _) => apply preserves_ret; typeclasses eauto
  | |- preserves _ (raise _) => apply preserves_raise; typeclasses eauto
  | |- preserves _ (lift _) => apply preserves_lift; typeclasses eauto
  | |- preserves _ get => apply preserves_get; typeclasses eauto
  | |- preserves _ (when _ _) => apply preserves_when; [typeclasses eauto |]
  | |- preserves _ (if ?b then _ else _) => destruct b
  | |- preserves _ (match ?x with _ => _ end) => destruct x
  end.

Ltac frames :=
  frame;
  try solve [ auto with frames
            | apply emit_traces; reflexivity
            | apply emit_emits; reflexivity ].

(** ** What each operation may touch *)

Section OperationFrames.

Context {T : Collaborators} (self : Runner T).

Lemma check_points_traces : preserves (traces_only routine) (check_points_in_manifold (T:=T)).
Proof. unfold check_points_in_manifold. frames. Qed.

Lemma update_emits : preserves (emits_only routine) (update self).
Proof. unfold update. frames. Qed.

Lemma train_batch_emits step batch stats :
  preserves (emits_only routine) (train_batch self step batch stats).
Proof. unfold train_batch. frames. apply update_emits. Qed.

Lemma train_batches_emits batches : forall step stats,
  preserves (emits_only routine) (train_batches self step batches stats).
Proof.
  induction batches as [|b bs IH]; intros step stats; simpl.
  - frames.
  - frames. apply train_batch_emits.
Qed.

Lemma train_epoch_emits train_split epoch_num :
  preserves (emits_only routine) (train_epoch self train_split epoch_num).
Proof.
  unfold train_epoch. frames.
  - intros s r s' E. apply traces_only_emits. eapply check_points_traces; eauto.
  - apply train_batches_emits.
Qed.

Lemma evaluate_batches_traces batches : forall total,
  preserves (traces_only eval_event) (evaluate_batches (T:=T) batches total).
Proof.
  induction batches as [|b bs IH]; intros total; simpl.
  - frames.
  - unfold evaluate_batch. frames.
Qed.

Lemma evaluate_traces eval_split :
  preserves (traces_only eval_event) (evaluate (T:=T) eval_split).
Proof. unfold evaluate. frames. apply evaluate_batches_traces. Qed.

Lemma track_best_traces epoch distortion l :
  preserves (traces_only routine) (track_best (T:=T) epoch distortion l).
Proof. unfold track_best. frames. Qed.

End OperationFrames.

(** ** Training epochs *)

Section Training.

Context {T : Collaborators} (self : Runner T).

Let accum := grad_accum_steps (args self).
Let max_norm := max_grad_norm (args self).

Lemma optimizer_steps_app (tr1 tr2 : list (event T)) :
  optimizer_steps (tr1 ++ tr2) = optimizer_steps tr1 + optimizer_steps tr2.
Proof. unfold optimizer_steps. rewrite filter_app. apply len_app. Qed.

Lemma batch_losses_app (tr1 tr2 : list (event T)) :
  batch_losses (tr1 ++ tr2) = batch_losses tr1 ++ batch_losses tr2.
Proof. apply flat_map_app. Qed.





Lemma trailing_window (B i : Z) :
  0 < accum ->
  accum * (B / accum) <= i < B ->
  (i + 1) mod accum <> 0.
Proof. apply past_last_multiple. Qed.

Lemma train_batch_spec step batch stats s :
  accum <> 0 ->
  let v := calculate_loss T (last_column batch) (forward T (model_state s) batch) in
  exists stats' s',
    train_batch self step batch stats s = (Ok stats', s')
    /\ fst stats' = (fst stats + v / inject_Z accum)%Q
    /\ trace s' = trace s ++ batch_events accum max_norm step batch v
    /\ ((step + 1) mod accum <> 0 -> same_parameters s s').
Proof.
  intros Hacc v. unfold train_batch, bind, get, emit, set_grads, lift, py_mod.
  fold accum. cbn [trace model_state model_grads optimizer_state scheduler_state].
  destruct (accum =? 0) eqn:E0; [apply Z.eqb_eq in E0; contradiction|].
  unfold batch_events. fold v.
  destruct ((step + 1) mod accum =? 0) eqn:E.
  - unfold when, update, bind, get, emit, set_grads, set_optimizer, set_model.
    cbn [trace model_state model_grads optimizer_state scheduler_state].
    destruct (optimizer_step T _ _ _) as [o m].
    cbn [trace model_state model_grads optimizer_state scheduler_state].
    do 2 eexists. split; [reflexivity|].
    cbn [fst snd trace]. split; [reflexivity|]. split.
    + fold max_norm. unfold update_events. rewrite <- !app_assoc. reflexivity.
    + intros H. apply Z.eqb_eq in E. contradiction.
  - unfold when, ret.
    do 2 eexists. split; [reflexivity|].
    cbn [fst snd trace]. split; [reflexivity|]. split.
    + rewrite <- !app_assoc. reflexivity.
    + intros _. repeat split.
Qed.

Lemma train_batches_spec batches : forall step stats s,
  accum <> 0 ->
  exists losses stats' s',
    train_batches self step batches stats s = (Ok stats', s')
    /\ List.length losses = List.length batches
    /\ trace s' = trace s ++ batches_events accum max_norm step batches losses
    /\ (fst stats' == fst stats + Qsum (map (fun v => v / inject_Z accum) losses))%Q.
Proof.
  induction batches as [|b bs IH]; intros step stats s Hacc.
  - exists [], stats, s. simpl. unfold ret. rewrite app_nil_r.
    repeat split. ring.
  - destruct (train_batch_spec step b stats s Hacc) as [stats1 [s1 [E1 [F1 [Tr1 _]]]]].
    destruct (IH (step + 1) stats1 s1 Hacc) as [vs [stats' [s' [E2 [L2 [Tr2 F2]]]]]].
    eexists (_ :: vs), stats', s'.
    cbn [train_batches]. unfold bind. rewrite E1, E2.
    split; [reflexivity|]. split; [simpl; lia|]. split.
    + rewrite Tr2, Tr1. cbn [batches_events]. rewrite <- app_assoc. reflexivity.
    + rewrite F2, F1. cbn [map Qsum]. ring.
Qed.

(** Batches that close no window leave the model and the optimizer alone. *)
Lemma train_batch_no_update step batch stats :
  (step + 1) mod accum <> 0 ->
  preserves same_parameters (train_batch self step batch stats).
Proof.
  intros Hno s r s' E.
  unfold train_batch, bind, get, emit, set_grads, lift, py_mod in E.
  fold accum in E. cbn [trace model_state model_grads optimizer_state scheduler_state] in E.
  destruct (accum =? 0).
  - inversion E; subst. repeat split.
  - destruct ((step + 1) mod accum =? 0) eqn:Em.
    + apply Z.eqb_eq in Em. contradiction.
    + unfold when, ret in E. inversion E; subst. repeat split.
Qed.

Lemma train_batches_no_update batches : forall step stats,
  (forall i, step <= i < step + len batches -> (i + 1) mod accum <> 0) ->
  preserves same_parameters (train_batches self step batches stats).
Proof.
  induction batches as [|b bs IH]; intros step stats Hno; cbn [train_batches].
  - frames.
  - rewrite len_cons in Hno. pose proof (len_nonneg bs).
    frames.
    + apply train_batch_no_update. apply Hno. lia.
    + apply IH. intros i Hi. apply Hno. lia.
Qed.

Lemma train_batches_app batches1 : forall batches2 step stats s,
  train_batches self step (batches1 ++ batches2) stats s
  = match train_batches self step batches1 stats s with
    | (Ok stats1, s1) => train_batches self (step + len batches1) batches2 stats1 s1
    | (Raise e, s1) => (Raise e, s1)
    end.
Proof.
  induction batches1 as [|b bs IH]; intros batches2 step stats s.
  - cbn [app train_batches]. unfold ret. change (len (@nil Tensor)) with 0.
    now rewrite Z.add_0_r.
  - cbn [app train_batches]. unfold bind.
    destruct (train_batch self step b stats s) as [[stats1|e] s1]; [|reflexivity].
    rewrite IH. rewrite len_cons.
    replace (step + (len bs + 1)) with (step + 1 + len bs) by lia. reflexivity.
Qed.

(** An epoch whose check passes: the shape of its trace and its value. *)
Lemma train_epoch_spec batches epoch_num s :
  accum <> 0 ->
  fst (fst (check_all_points T (model_state s))) = true ->
  exists losses r s' tail,
    train_epoch self batches epoch_num s = (r, s')
    /\ List.length losses = List.length batches
    /\ trace s' = trace s ++ prologue_events
                   ++ batches_events accum max_norm 0 batches losses ++ tail
    /\ (batches = [] -> r = Raise ZeroDivisionError /\ tail = [])
    /\ (batches <> [] ->
        exists v avg, r = Ok v
          /\ tail = [AddScalar "grad_norm/avg" avg epoch_num]
          /\ (v == Qsum (map (fun x => x / inject_Z accum) losses)
                   / inject_Z (len batches))%Q).
Proof.
  intros Hacc Hok.
  unfold train_epoch, check_points_in_manifold, bind, get, emit, set_grads.
  cbn [trace model_state model_grads optimizer_state scheduler_state].
  destruct (check_all_points T (model_state s)) as [[ok point] reason].
  cbn [fst] in Hok. subst ok. cbn [negb]. unfold ret at 1.
  cbn [trace model_state model_grads optimizer_state scheduler_state].
  match goal with
  | |- context [train_batches self 0 batches ?st ?s0] =>
      destruct (train_batches_spec batches 0 st s0 Hacc)
        as [losses [stats' [s1 [E1 [L1 [Tr1 F1]]]]]]; rewrite E1
  end.
  cbn [trace] in Tr1. unfold lift, py_div.
  destruct batches as [|b bs].
  - change (len (@nil Tensor)) with 0. cbn [Z.eqb].
    exists losses, (Raise ZeroDivisionError), s1, []. split; [reflexivity|].
    split; [exact L1|]. split.
    + rewrite Tr1, app_nil_r. unfold prologue_events. rewrite <- !app_assoc. reflexivity.
    + split; [auto | intros H; contradiction].
  - assert ((len (b :: bs) =? 0) = false) as ->.
    { apply Z.eqb_neq. rewrite len_cons. pose proof (len_nonneg bs). lia. }
    cbn [trace model_state model_grads optimizer_state scheduler_state].
    do 4 eexists. split; [reflexivity|]. split; [exact L1|]. split.
    + cbn [trace]. rewrite Tr1. unfold prologue_events. rewrite <- !app_assoc. reflexivity.
    + split; [intros H; discriminate|]. intros _.
      do 2 eexists. split; [reflexivity|]. split; [reflexivity|].
      rewrite F1. cbn [fst]. rewrite Qplus_0_l. reflexivity.
Qed.


Lemma len_complete_windows batches :
  0 < accum ->
  len (complete_windows accum batches) = accum * (len batches / accum).
Proof.
  intros Hpos. unfold complete_windows, len. rewrite length_firstn.
  pose proof (Z.div_mod (len batches) accum ltac:(lia)) as D.
  pose proof (Z.mod_pos_bound (len batches) accum Hpos) as B.
  pose proof (len_nonneg batches) as N.
  assert (0 <= len batches / accum) by (apply Z.div_pos; lia).
  unfold len in *. nia.
Qed.

(** The batches after the last complete window close no window. *)
Lemma trailing_batches_no_update batches i :
  0 < accum ->
  len (complete_windows accum batches) <= i
  < len (complete_windows accum batches)
    + len (skipn (Z.to_nat (accum * (len batches / accum))) batches) ->
  (i + 1) mod accum <> 0.
Proof.
  intros Hpos Hi. apply (trailing_window (len batches)); [exact Hpos|].
  rewrite len_complete_windows in Hi by exact Hpos.
  pose proof (len_complete_windows batches Hpos) as Hc.
  unfold complete_windows in Hc.
  assert (len batches
          = len (firstn (Z.to_nat (accum * (len batches / accum))) batches)
            + len (skipn (Z.to_nat (accum * (len batches / accum))) batches)) as Hsum.
  { rewrite <- len_app, firstn_skipn. reflexivity. }
  lia.
Qed.

(** The model and the optimizer after the batches are those after the
    batches of the complete windows. *)
Lemma train_batches_trailing pre post stats (s0 : machine T) :
  (forall i, len pre <= i < len pre + len post -> (i + 1) mod accum <> 0) ->
  same_parameters (snd (train_batches self 0 pre stats s0))
                  (snd (train_batches self 0 (pre ++ post) stats s0)).
Proof.
  intros Hno. rewrite train_batches_app.
  destruct (train_batches self 0 pre stats s0) as [[stats1|err] s1]; cbn [snd].
  - destruct (train_batches self (0 + len pre) post stats1 s1) as [r2 s2] eqn:E2.
    cbn [snd]. eapply train_batches_no_update; [|exact E2].
    intros i Hi. apply Hno. lia.
  - reflexivity.
Qed.

(** After its first calls, an epoch whose check passes is its batch loop, as
    far as model, optimizer and scheduler go. *)
Lemma train_epoch_after_batches epoch_num (s : machine T) :
  fst (fst (check_all_points T (model_state s))) = true ->
  exists s0, forall batches,
    same_parameters (snd (train_batches self 0 batches (0%Q, 0%Q) s0))
                    (snd (train_epoch self batches epoch_num s)).
Proof.
  intros Hok.
  unfold train_epoch, check_points_in_manifold, bind, get, emit, set_grads.
  cbn [trace model_state model_grads optimizer_state scheduler_state].
  destruct (check_all_points T (model_state s)) as [[ok point] reason].
  cbn [fst] in Hok. subst ok. cbn [negb]. unfold ret at 1.
  cbn [trace model_state model_grads optimizer_state scheduler_state].
  exists {| model_state := model_state s;
            model_grads := zero_gradients T;
            optimizer_state := optimizer_state s;
            scheduler_state := scheduler_state s;
            trace := (((trace s ++ [CheckAllPoints]) ++ [ModelTrain])
                      ++ [ModelZeroGrad]) ++ [OptimizerZeroGrad] |}.
  intros batches.
  destruct (train_batches self 0 batches _ _) as [[stats|err] s1]; cbn [snd];
    [|reflexivity].
  unfold lift, py_div. destruct (len batches =? 0); cbn [snd]; repeat split.
Qed.

(** An epoch whose check passes starts from zeroed gradients. *)
Lemma train_epoch_zeroes_grads batches epoch_num g (s : machine T) :
  fst (fst (check_all_points T (model_state s))) = true ->
  train_epoch self batches epoch_num (with_grads g s)
  = train_epoch self batches epoch_num s.
Proof.
  intros Hok.
  unfold train_epoch, check_points_in_manifold, bind, get, emit, set_grads.
  cbn [with_grads trace model_state model_grads optimizer_state scheduler_state].
  destruct (check_all_points T (model_state s)) as [[ok point] reason].
  cbn [fst] in Hok. subst ok. reflexivity.
Qed.

(** An epoch returns only if its check passed, it had batches and the
    accumulation window is not zero. *)
Lemma train_epoch_Ok_inv batches epoch_num (s : machine T) v s' :
  train_epoch self batches epoch_num s = (Ok v, s') ->
  accum <> 0
  /\ fst (fst (check_all_points T (model_state s))) = true
  /\ batches <> [].
Proof.
  unfold train_epoch, check_points_in_manifold, bind at 1 2, get, emit at 1.
  cbn [trace model_state model_grads optimizer_state scheduler_state].
  destruct (check_all_points T (model_state s)) as [[ok point] reason].
  destruct ok; cbn [negb fst]; [|unfold raise; discriminate].
  unfold ret at 1, bind, emit, set_grads.
  cbn [trace model_state model_grads optimizer_state scheduler_state].
  destruct batches as [|b bs].
  - cbn [train_batches]. unfold ret, lift, py_div. change (len (@nil Tensor)) with 0.
    cbn [Z.eqb]. discriminate.
  - intros E. split; [|split; [reflexivity | discriminate]].
    intros H0. cbn [train_batches] in E.
    unfold bind, train_batch, bind, get, emit, set_grads, lift, py_mod in E.
    fold accum in E. rewrite H0 in E. cbn in E. discriminate.
Qed.

(** An epoch whose check fails: it raises at once. *)
Lemma train_epoch_violation batches epoch_num (s : machine T) point reason :
  check_all_points T (model_state s) = (false, point, reason) ->
  train_epoch self batches epoch_num s
  = (Raise (AssertionError
              (outside_manifold_message reason (option_map (str_point T) point))),
     traced [CheckAllPoints] s).
Proof.
  intros Hc. unfold train_epoch, check_points_in_manifold, bind, get, emit.
  cbn [trace model_state model_grads optimizer_state scheduler_state].
  rewrite Hc. reflexivity.
Qed.

(** The check is the first call of an epoch. *)
Lemma train_epoch_check_first batches epoch_num (s : machine T) r s' :
  train_epoch self batches epoch_num s = (r, s') ->
  exists rest, trace s' = trace s ++ CheckAllPoints :: rest.
Proof.
  assert (Hck : exists r0, check_points_in_manifold s = (r0, traced [CheckAllPoints] s)).
  { unfold check_points_in_manifold, bind, get, emit.
    cbn [trace model_state model_grads optimizer_state scheduler_state].
    destruct (check_all_points T (model_state s)) as [[ok point] reason].
    destruct ok; cbn [negb]; eexists; reflexivity. }
  destruct Hck as [r0 Hck].
  unfold train_epoch. unfold bind at 1. rewrite Hck.
  destruct r0 as [[]|err]; intros E.
  - match type of E with
    | ?m _ = _ =>
        assert (Hp : preserves (emits_only routine) m)
          by (frames; apply train_batches_emits)
    end.
    destruct (Hp _ _ _ E) as [evs [Hevs _]]. exists evs.
    rewrite Hevs. cbn [traced trace]. rewrite <- app_assoc. reflexivity.
  - inversion E; subst. exists []. reflexivity.
Qed.

End Training.

(** ** Evaluation, checkpoints and export *)

Section Evaluation.

Context {T : Collaborators} (self : Runner T).

Lemma evaluate_batches_spec batches : forall total (s : machine T),
  evaluate_batches batches total s
  = (Ok (total ++ split_distortions (model_state s) batches), traced (map Forward batches) s).
Proof.
  induction batches as [|b bs IH]; intros total s.
  - cbn [evaluate_batches split_distortions flat_map map]. unfold ret.
    rewrite traced_nil, app_nil_r. reflexivity.
  - cbn [evaluate_batches]. unfold bind, evaluate_batch, bind, get, emit, ret.
    rewrite IH. cbn [model_state]. unfold split_distortions. cbn [flat_map map].
    rewrite <- app_assoc. f_equal.
    unfold traced. cbn [trace model_state model_grads optimizer_state scheduler_state].
    rewrite <- app_assoc. reflexivity.
Qed.

Lemma evaluate_spec split (s : machine T) :
  evaluate split s
  = (mean (split_distortions (model_state s) split), traced (evaluate_events split) s).
Proof.
  unfold evaluate, bind, emit. rewrite evaluate_batches_spec.
  cbn [model_state app]. unfold lift, evaluate_events, traced.
  cbn [trace model_state model_grads optimizer_state scheduler_state].
  rewrite <- app_assoc. reflexivity.
Qed.

Lemma distance_rows_spec all_nodes node_ids : forall matrix (s : machine T),
  distance_rows all_nodes node_ids matrix s
  = (Ok (matrix ++ map (fun n => forward T (model_state s) (node_pairs all_nodes n)) node_ids),
     traced (map (fun n => Forward (node_pairs all_nodes n)) node_ids) s).
Proof.
  induction node_ids as [|n ns IH]; intros matrix s.
  - cbn [distance_rows map]. unfold ret. rewrite traced_nil, app_nil_r. reflexivity.
  - cbn [distance_rows]. unfold bind, get, emit. rewrite IH.
    cbn [model_state map]. rewrite <- app_assoc. f_equal.
    unfold traced. cbn [trace model_state model_grads optimizer_state scheduler_state].
    rewrite <- app_assoc. reflexivity.
Qed.

Lemma calculate_mAP_spec s :
  let all_nodes := arange (len_id2node T (id2node self)) in
  calculate_mAP self s
  = (Ok (mAP_metric T (distance_matrix_of (model_state s) all_nodes)),
     traced (mAP_events all_nodes) s).
Proof.
  intros all_nodes. unfold calculate_mAP, build_distance_matrix, bind, emit.
  fold all_nodes. rewrite distance_rows_spec. unfold ret.
  cbn [model_state app]. unfold mAP_events, distance_matrix_of, traced.
  cbn [trace model_state model_grads optimizer_state scheduler_state].
  rewrite <- app_assoc. reflexivity.
Qed.

Lemma save_model_spec epoch s :
  save_model self epoch s
  = (Ok tt, traced [LogInfo (LogSaving (checkpoint_name self epoch));
                    TorchSave (checkpoint_name self epoch) (model_state s) (id2node self)] s).
Proof.
  unfold save_model, bind, get, emit, traced.
  cbn [trace model_state model_grads optimizer_state scheduler_state].
  rewrite <- app_assoc. reflexivity.
Qed.

Lemma track_best_spec epoch d l (s : machine T) :
  track_best epoch d l s
  = (Ok (new_best epoch d (model_state s) l),
     traced (if lt_float d (best_distortion l) then [LogInfo (LogBest d epoch)] else []) s).
Proof.
  unfold track_best, new_best. destruct (lt_float d (best_distortion l)).
  - reflexivity.
  - unfold ret. rewrite traced_nil. reflexivity.
Qed.

End Evaluation.

(** ** One pass through the epoch loop *)

Section EpochBody.

Context {T : Collaborators} (self : Runner T).

Lemma validation_spec epoch v l (s : machine T) r s' :
  validation self epoch v l s = (r, s') ->
  match mean (split_distortions (model_state s) (validate self)) with
  | Raise err => r = Raise err /\ s' = traced (evaluate_events (validate self)) s
  | Ok d =>
      r = Ok (new_best epoch d (model_state s) l,
              early_stop (patience (args self)) epoch (new_best epoch d (model_state s) l))
      /\ model_state s' = model_state s
      /\ model_grads s' = model_grads s
      /\ trace s' = trace s ++ validation_events self epoch v d (model_state s) l
  end.
Proof.
  unfold validation, bind. rewrite evaluate_spec.
  destruct (mean _) as [d|err]; [|intros E; inversion E; auto].
  unfold emit, get, set_scheduler, set_optimizer.
  cbn [trace model_state model_grads optimizer_state scheduler_state].
  destruct (scheduler_step T _ _ _) as [c o].
  cbn [trace model_state model_grads optimizer_state scheduler_state].
  rewrite track_best_spec.
  cbn [trace model_state model_grads optimizer_state scheduler_state].
  unfold validation_events, early_stop.
  destruct (patience (args self) * 3 <=? _); unfold ret; intros E; inversion E; subst; clear E;
    cbn [trace model_state model_grads optimizer_state scheduler_state traced];
    repeat split; rewrite <- ?app_assoc, ?app_nil_r; reflexivity.
Qed.

Lemma epoch_body_spec epoch l (s : machine T) x s2 :
  epoch_body self epoch l s = (Ok x, s2) ->
  exists v s1,
    train_epoch self (train self epoch) epoch s = (Ok v, s1)
    /\ save_epochs (args self) <> 0
    /\ val_every (args self) <> 0
    /\ model_state s2 = model_state s1
    /\ if epoch mod val_every (args self) =? 0
       then exists d,
           mean (split_distortions (model_state s1) (validate self)) = Ok d
           /\ x = (new_best epoch d (model_state s1) l,
                   early_stop (patience (args self)) epoch
                     (new_best epoch d (model_state s1) l))
           /\ trace s2 = trace s1 ++ after_training_events self epoch v s1
                         ++ validation_events self epoch v d (model_state s1) l
       else x = (l, false)
            /\ trace s2 = trace s1 ++ after_training_events self epoch v s1.
Proof.
  unfold epoch_body, bind at 1.
  destruct (train_epoch self (train self epoch) epoch s) as [[v|err] s1];
    [|discriminate].
  intros E. exists v, s1. split; [reflexivity|].
  unfold bind, emit, get, lift, py_mod in E.
  cbn [trace model_state model_grads optimizer_state scheduler_state] in E.
  unfold after_training_events.
  destruct (projected_points T (model_state s1)) as [p|];
    unfold emit, ret in E;
    cbn [trace model_state model_grads optimizer_state scheduler_state] in E.
  all: destruct (save_epochs (args self) =? 0) eqn:ES; [discriminate|].
  all: apply Z.eqb_neq in ES; split; [exact ES|].
  all: destruct (epoch mod save_epochs (args self) =? 0); unfold when in E;
    [rewrite save_model_spec in E | unfold ret in E];
    cbn [trace model_state model_grads optimizer_state scheduler_state traced] in E.
  all: destruct (val_every (args self) =? 0) eqn:EV; [discriminate|].
  all: apply Z.eqb_neq in EV; split; [exact EV|].
  all: destruct (epoch mod val_every (args self) =? 0).
  all: try (apply validation_spec in E; unfold traced in E;
            cbn [trace model_state model_grads optimizer_state scheduler_state] in E;
            destruct (mean _) as [d|err] eqn:Ed; [|destruct E; discriminate];
            destruct E as [Ex [Em [_ Etr]]]; split; [exact Em|];
            exists d; split; [reflexivity|]; split; [congruence|];
            rewrite Etr; unfold save_events; rewrite <- ?app_assoc, ?app_nil_r;
            reflexivity).
  all: inversion E; subst; clear E; unfold traced;
    cbn [trace model_state model_grads optimizer_state scheduler_state];
    split; [reflexivity|]; split; [reflexivity|];
    unfold save_events; rewrite <- ?app_assoc, ?app_nil_r; reflexivity.
Qed.

End EpochBody.

(** ** The epoch loop *)

Section Loop.

Context {T : Collaborators} (self : Runner T).

Lemma loop_after_S k l0 (s0 : machine T) :
  loop_after self (S k) l0 s0
  = match loop_after self k l0 s0 with
    | (Running l, s) =>
        match epoch_body self (Z.of_nat (S k)) l s with
        | (Ok (l', false), s') => (Running l', s')
        | (Ok (l', true), s') => (Stopped (Z.of_nat (S k)) l', s')
        | (Raise e, s') => (Failed e, s')
        end
    | other => other
    end.
Proof. reflexivity. Qed.

(** A loop that was left stays where it was left. *)
Lemma loop_after_left k l0 (s0 : machine T) c s n :
  loop_after self k l0 s0 = (c, s) ->
  (forall l, c <> Running l) ->
  loop_after self (k + n) l0 s0 = (c, s).
Proof.
  intros E Hc. induction n as [|n IH].
  - now rewrite Nat.add_0_r.
  - rewrite Nat.add_succ_r, loop_after_S, IH.
    destruct c; [exfalso; eapply Hc; reflexivity | reflexivity | reflexivity].
Qed.

(** How a loop that has not failed got where it is. *)
Lemma loop_after_S_inv k l0 (s0 : machine T) c' s' l' :
  loop_after self (S k) l0 s0 = (c', s') ->
  locals_of c' = Some l' ->
  (exists e, c' = Stopped e l' /\ loop_after self k l0 s0 = (c', s'))
  \/ (exists l s brk,
        loop_after self k l0 s0 = (Running l, s)
        /\ epoch_body self (Z.of_nat (S k)) l s = (Ok (l', brk), s')
        /\ c' = if brk then Stopped (Z.of_nat (S k)) l' else Running l').
Proof.
  rewrite loop_after_S.
  destruct (loop_after self k l0 s0) as [[l|e l|err] s].
  - destruct (epoch_body self (Z.of_nat (S k)) l s) as [[[l1 [|]]|err] s1] eqn:Eb;
      intros E Hl; inversion E; subst; cbn [locals_of] in Hl; inversion Hl; subst.
    + right. exists l, s, true. auto.
    + right. exists l, s, false. auto.
  - intros E Hl. inversion E; subst. cbn [locals_of] in Hl. inversion Hl; subst.
    left. exists e. auto.
  - intros E Hl. inversion E; subst. discriminate.
Qed.

(** What the loop returns, for where it stands. *)
Lemma for_epochs_from k l0 (s0 : machine T) n : forall l s,
  loop_after self k l0 s0 = (Running l, s) ->
  for_epochs self n (Z.of_nat k + 1) l s
  = match loop_after self (k + n) l0 s0 with
    | (Running l', s') => (Ok l', s')
    | (Stopped _ l', s') => (Ok l', s')
    | (Failed e, s') => (Raise e, s')
    end.
Proof.
  revert k. induction n as [|n IH]; intros k l s E.
  - rewrite Nat.add_0_r, E. reflexivity.
  - cbn [for_epochs]. unfold bind.
    replace (Z.of_nat k + 1) with (Z.of_nat (S k)) by lia.
    assert (ES : loop_after self (S k) l0 s0
                 = match epoch_body self (Z.of_nat (S k)) l s with
                   | (Ok (l', false), s') => (Running l', s')
                   | (Ok (l', true), s') => (Stopped (Z.of_nat (S k)) l', s')
                   | (Raise e, s') => (Failed e, s')
                   end) by (rewrite loop_after_S, E; reflexivity).
    replace (k + S n)%nat with (S k + n)%nat by lia.
    destruct (epoch_body self (Z.of_nat (S k)) l s) as [[[l1 [|]]|err] s1].
    + cbn [fst snd]. unfold ret.
      rewrite (loop_after_left (S k) l0 s0 _ _ n ES) by (intros l2; discriminate).
      reflexivity.
    + cbn [fst snd]. rewrite <- (IH (S k) l1 s1 ES).
      reflexivity.
    + rewrite (loop_after_left (S k) l0 s0 _ _ n ES) by (intros l2; discriminate).
      reflexivity.
Qed.

(** The loop of [run] returns the locals the loop stands at after all its
    passes. *)
Lemma for_epochs_loop_after n l0 (s0 : machine T) :
  for_epochs self n 1 l0 s0
  = match loop_after self n l0 s0 with
    | (Running l', s') => (Ok l', s')
    | (Stopped _ l', s') => (Ok l', s')
    | (Failed e, s') => (Raise e, s')
    end.
Proof. apply (for_epochs_from 0 l0 s0 n l0 s0). reflexivity. Qed.

Lemma run_loop_after (s0 : machine T) :
  run self s0
  = match loop_after self (Z.to_nat (epochs (args self))) initial_locals s0 with
    | (Running l, s) => finalize self l s
    | (Stopped _ l, s) => finalize self l s
    | (Failed e, s) => (Raise e, s)
    end.
Proof.
  unfold run, bind. rewrite for_epochs_loop_after.
  destruct (loop_after self (Z.to_nat (epochs (args self))) initial_locals s0)
    as [[l|e l|err] s]; reflexivity.
Qed.

Lemma new_best_cases epoch d m (l : locals T) :
  (lt_float d (best_distortion l) = true
   /\ new_best epoch d m l
      = {| best_distortion := Finite d; best_epoch := epoch; best_model_state := Some m |})
  \/ (lt_float d (best_distortion l) = false /\ new_best epoch d m l = l).
Proof. unfold new_best. destruct (lt_float d (best_distortion l)); auto. Qed.

(** Where the best epoch and the last validated epoch stand to each other
    while the loop runs, and when it is left by [break]. *)
Lemma early_stop_invariant k (s0 : machine T) : forall c s l,
  0 < val_every (args self) ->
  loop_after self k initial_locals s0 = (c, s) ->
  locals_of c = Some l ->
  match c with
  | Running _ =>
      (l = initial_locals /\ Z.of_nat k < val_every (args self))
      \/ (1 <= best_epoch l <= Z.of_nat k
          /\ best_epoch l mod val_every (args self) = 0
          /\ val_every (args self) * (Z.of_nat k / val_every (args self)) - best_epoch l
             < patience (args self) * 3)
  | Stopped e _ =>
      1 <= best_epoch l <= e /\ e <= Z.of_nat k
      /\ best_epoch l mod val_every (args self) = 0
      /\ e mod val_every (args self) = 0
      /\ patience (args self) * 3 <= e - best_epoch l
      /\ (e = best_epoch l \/ e - val_every (args self) - best_epoch l < patience (args self) * 3)
  | Failed _ => True
  end.
Proof.
  set (V := val_every (args self)). set (P := patience (args self)).
  induction k as [|k IH]; intros c s l HV E Hl.
  - cbn [loop_after] in E. inversion E; subst. cbn [locals_of] in Hl. inversion Hl; subst.
    left. split; [reflexivity | cbn; lia].
  - destruct (loop_after_S_inv k _ _ _ _ _ E Hl)
      as [[e [-> Ek]] | [l1 [s1 [brk [Ek [Eb ->]]]]]].
    + specialize (IH _ _ _ HV Ek Hl). cbn beta iota in IH. lia.
    + specialize (IH _ _ l1 HV Ek eq_refl). cbn beta iota in IH.
      apply epoch_body_spec in Eb.
      destruct Eb as [v [s2 [_ [_ [_ [_ Eb]]]]]]. fold V in Eb.
      set (e := Z.of_nat (S k)) in *.
      assert (He : e = Z.of_nat k + 1) by (unfold e; lia).
      pose proof (div_succ (Z.of_nat k) V HV) as Hdiv. rewrite <- He in Hdiv.
      destruct (e mod V =? 0) eqn:Em.
      * apply Z.eqb_eq in Em.
        assert (HeV : V * (e / V) = e).
        { pose proof (Z.div_mod e V ltac:(lia)). lia. }
        destruct Eb as [d [_ [Ex _]]]. injection Ex as El Ebrk. rewrite <- El in Ebrk.
        unfold early_stop in Ebrk. fold P in Ebrk.
        assert (Hcase : (best_epoch l = e)
                        \/ (best_epoch l = best_epoch l1 /\ l1 <> initial_locals
                            /\ l = l1)).
        { destruct (new_best_cases e d (model_state s2) l1) as [[_ Hn]|[Hlt Hn]];
            rewrite Hn in El; subst l.
          - left. reflexivity.
          - right. repeat split. intros ->. cbn in Hlt. discriminate. }
        destruct brk.
        -- symmetry in Ebrk. apply Z.leb_le in Ebrk.
           destruct Hcase as [Hb | [Hb [Hne _]]].
           ++ rewrite Hb. repeat split; try lia.
           ++ destruct IH as [[-> _] | [Hb1 [Hb2 Hb3]]]; [contradiction|].
              rewrite Hb in *. repeat split; try lia.
        -- symmetry in Ebrk. apply Z.leb_gt in Ebrk. right.
           destruct Hcase as [Hb | [Hb [Hne _]]].
           ++ rewrite Hb. repeat split; try lia.
           ++ destruct IH as [[-> _] | [Hb1 [Hb2 Hb3]]]; [contradiction|].
              rewrite Hb in *. repeat split; try lia.
      * destruct Eb as [Ex _]. inversion Ex; subst l brk.
        apply Z.eqb_neq in Em.
        destruct IH as [[-> Hk] | [Hb1 [Hb2 Hb3]]].
        -- left. split; [reflexivity|].
           assert (e <> V) by (intros ->; rewrite Z_mod_same_full in Em; lia). lia.
        -- right. rewrite Hdiv, Z.add_0_r. repeat split; try lia.
Qed.

End Loop.

(** ** What the events of an epoch show *)

Section Projections.

Context {T : Collaborators} (self : Runner T).

Lemma flat_map_vanishes {B : Type} (E : event T -> bool) (f : event T -> list B) evs :
  forallb E evs = true ->
  (forall e, E e = true -> f e = []) ->
  flat_map f evs = [].
Proof.
  intros F HE. induction evs as [|e evs IH]; [reflexivity|].
  cbn [forallb] in F. apply andb_prop in F as [Fe F].
  cbn [flat_map]. rewrite (HE e Fe), IH by exact F. reflexivity.
Qed.

Lemma filter_vanishes (E P : event T -> bool) evs :
  forallb E evs = true ->
  (forall e, E e = true -> P e = false) ->
  filter P evs = [].
Proof.
  intros F HE. induction evs as [|e evs IH]; [reflexivity|].
  cbn [forallb] in F. apply andb_prop in F as [Fe F].
  cbn [filter]. rewrite (HE e Fe), IH by exact F. reflexivity.
Qed.

Lemma training_calls_batches_events accum max_norm batches : forall losses step,
  forallb training_call (batches_events (T:=T) accum max_norm step batches losses) = true.
Proof.
  induction batches as [|b bs IH]; intros losses step; [reflexivity|].
  destruct losses as [|v vs]; [reflexivity|].
  cbn [batches_events]. rewrite forallb_app, IH.
  unfold batch_events. destruct ((step + 1) mod accum =? 0); reflexivity.
Qed.

Lemma eval_events_evaluate split :
  forallb eval_event (evaluate_events (T:=T) split) = true.
Proof.
  unfold evaluate_events. cbn [forallb eval_event andb].
  induction split as [|b bs IH]; [reflexivity|]. cbn [map forallb eval_event andb]. exact IH.
Qed.

Lemma val_history_app (tr1 tr2 : list (event T)) :
  val_history (tr1 ++ tr2) = val_history tr1 ++ val_history tr2.
Proof. apply flat_map_app. Qed.

Lemma train_loss_series_app (tr1 tr2 : list (event T)) :
  train_loss_series (tr1 ++ tr2) = train_loss_series tr1 ++ train_loss_series tr2.
Proof. apply flat_map_app. Qed.

Lemma store_writes_app (tr1 tr2 : list (event T)) :
  store_writes (tr1 ++ tr2) = store_writes tr1 ++ store_writes tr2.
Proof. apply filter_app. Qed.

Lemma after_training_shows epoch v (s1 : machine T) :
  val_history (after_training_events self epoch v s1) = []
  /\ batch_losses (after_training_events self epoch v s1) = []
  /\ train_loss_series (after_training_events self epoch v s1) = [(epoch, v)]
  /\ store_writes (after_training_events self epoch v s1)
     = if epoch mod save_epochs (args self) =? 0
       then [TorchSave (checkpoint_name self epoch) (model_state s1) (id2node self)]
       else [].
Proof.
  unfold after_training_events, save_events.
  destruct (projected_points T (model_state s1));
    destruct (epoch mod save_epochs (args self) =? 0); repeat split.
Qed.

Lemma validation_shows epoch v d m (l : locals T) :
  val_history (validation_events self epoch v d m l) = [(epoch, d)]
  /\ batch_losses (validation_events self epoch v d m l) = []
  /\ train_loss_series (validation_events self epoch v d m l) = []
  /\ store_writes (validation_events self epoch v d m l) = [].
Proof.
  unfold validation_events.
  rewrite val_history_app, batch_losses_app, train_loss_series_app, store_writes_app.
  pose proof (eval_events_evaluate (validate self)) as F.
  unfold val_history at 1. unfold batch_losses at 1. unfold train_loss_series at 1.
  unfold store_writes at 1.
  rewrite !(flat_map_vanishes eval_event) by (auto; intros [] H; try discriminate H; reflexivity).
  rewrite (filter_vanishes eval_event) by (auto; intros [] H; try discriminate H; reflexivity).
  destruct (lt_float d (best_distortion l)); destruct (early_stop _ _ _); repeat split.
Qed.

Lemma training_shows accum max_norm batches losses avg epoch :
  List.length losses = List.length batches ->
  val_history (prologue_events (T:=T) ++ batches_events accum max_norm 0 batches losses
               ++ [AddScalar "grad_norm/avg" avg epoch]) = []
  /\ batch_losses (prologue_events (T:=T) ++ batches_events accum max_norm 0 batches losses
                   ++ [AddScalar "grad_norm/avg" avg epoch]) = losses
  /\ train_loss_series (prologue_events (T:=T)
                        ++ batches_events accum max_norm 0 batches losses
                        ++ [AddScalar "grad_norm/avg" avg epoch]) = [].
Proof.
  intros Hlen.
  rewrite !val_history_app, !batch_losses_app, !train_loss_series_app.
  pose proof (training_calls_batches_events accum max_norm batches losses 0) as F.
  split; [|split].
  - unfold val_history at 2.
    rewrite (flat_map_vanishes training_call)
      by (auto; intros [] H; try discriminate H; reflexivity).
    reflexivity.
  - assert (batch_losses (batches_events (T:=T) accum max_norm 0 batches losses) = losses)
      as ->.
    { clear F. revert losses Hlen. generalize 0.
      induction batches as [|b bs IH]; intros step losses Hlen.
      - destruct losses; [reflexivity | discriminate].
      - destruct losses as [|x xs]; [discriminate|]. cbn [batches_events].
        rewrite batch_losses_app, IH by (simpl in Hlen; lia).
        unfold batch_events. destruct ((step + 1) mod accum =? 0); reflexivity. }
    cbn. apply app_nil_r.
  - unfold train_loss_series at 2.
    rewrite (flat_map_vanishes training_call)
      by (auto; intros [] H; try discriminate H; reflexivity).
    reflexivity.
Qed.

End Projections.

(** ** What an epoch shows *)

Section EpochShows.

Context {T : Collaborators} (self : Runner T).

Lemma epoch_body_shows epoch l (s : machine T) x s2 :
  epoch_body self epoch l s = (Ok x, s2) ->
  save_epochs (args self) <> 0
  /\ val_every (args self) <> 0
  /\ store_writes (trace s2)
     = store_writes (trace s) ++ periodic_checkpoint self epoch (model_state s2)
  /\ if epoch mod val_every (args self) =? 0
     then exists d,
         mean (split_distortions (model_state s2) (validate self)) = Ok d
         /\ x = (new_best epoch d (model_state s2) l,
                 early_stop (patience (args self)) epoch
                   (new_best epoch d (model_state s2) l))
         /\ val_history (trace s2) = val_history (trace s) ++ [(epoch, d)]
     else x = (l, false)
          /\ val_history (trace s2) = val_history (trace s).
Proof.
  intros E. apply epoch_body_spec in E.
  destruct E as [v [s1 [Etr [HS [HV [Hm Eb]]]]]].
  split; [exact HS|]. split; [exact HV|].
  pose proof (train_epoch_emits self _ _ _ _ _ Etr) as Hemit.
  assert (Hst : store_writes (trace s1) = store_writes (trace s)).
  { unfold store_writes. apply (emits_only_filter routine); [|exact Hemit].
    intros [] H; try discriminate H; reflexivity. }
  assert (Hvh : val_history (trace s1) = val_history (trace s)).
  { unfold val_history. apply (emits_only_flat_map routine); [|exact Hemit].
    intros [] H; try discriminate H; try reflexivity.
    cbn in H. destruct (tag =? "val/distortion")%string; [discriminate | reflexivity]. }
  destruct (after_training_shows self epoch v s1) as [AV [_ [_ AW]]].
  fold (periodic_checkpoint self epoch (model_state s1)) in AW.
  rewrite Hm.
  destruct (epoch mod val_every (args self) =? 0).
  - destruct Eb as [d [Ed [Ex Etr2]]].
    destruct (validation_shows self epoch v d (model_state s1) l) as [VV [_ [_ VW]]].
    split.
    + rewrite Etr2, !store_writes_app, AW, VW, Hst, app_nil_r. reflexivity.
    + exists d. split; [exact Ed|]. split; [exact Ex|].
      rewrite Etr2, !val_history_app, AV, VV, Hvh. reflexivity.
  - destruct Eb as [Ex Etr2]. split.
    + rewrite Etr2, !store_writes_app, AW, Hst. reflexivity.
    + split; [exact Ex|]. rewrite Etr2, !val_history_app, AV, Hvh, app_nil_r. reflexivity.
Qed.

End EpochShows.

(** ** What the loop writes *)

Section LoopFrames.

Context {T : Collaborators} (self : Runner T).

Lemma preserves_emits_weaken {A : Type} (E1 E2 : event T -> bool) (m : M T A) :
  (forall e, E1 e = true -> E2 e = true) ->
  preserves (emits_only E1) m -> preserves (emits_only E2) m.
Proof. intros HE Hm s r s' Eq. eapply emits_only_weaken; [exact HE | eapply Hm; eauto]. Qed.

Lemma preserves_traces_emits {A : Type} (E1 E2 : event T -> bool) (m : M T A) :
  (forall e, E1 e = true -> E2 e = true) ->
  preserves (traces_only E1) m -> preserves (emits_only E2) m.
Proof.
  intros HE Hm s r s' Eq.
  eapply emits_only_weaken; [exact HE | apply traces_only_emits; eapply Hm; eauto].
Qed.

Lemma validation_emits epoch v l :
  preserves (emits_only not_result) (validation self epoch v l).
Proof.
  unfold validation. frames.
  - apply (preserves_traces_emits eval_event); [|apply evaluate_traces].
    intros [] H; try discriminate H; reflexivity.
  - apply (preserves_traces_emits routine); [|apply track_best_traces].
    intros [] H; try discriminate H; reflexivity.
Qed.

Lemma epoch_body_emits epoch l :
  preserves (emits_only not_result) (epoch_body self epoch l).
Proof.
  unfold epoch_body. frames.
  - apply (preserves_emits_weaken routine); [|apply train_epoch_emits].
    intros [] H; try discriminate H; reflexivity.
  - unfold save_model. frames.
  - apply validation_emits.
Qed.

(** The loop hands nothing to the results store. *)
Lemma loop_after_emits k l0 (s0 : machine T) : forall c s,
  loop_after self k l0 s0 = (c, s) -> emits_only not_result s0 s.
Proof.
  induction k as [|k IH]; intros c s E.
  - cbn [loop_after] in E. inversion E; subst. reflexivity.
  - rewrite loop_after_S in E.
    destruct (loop_after self k l0 s0) as [[l1|e1 l1|err1] s1] eqn:Ek.
    + specialize (IH _ _ eq_refl).
      destruct (epoch_body self (Z.of_nat (S k)) l1 s1) as [r s2] eqn:Eb.
      apply epoch_body_emits in Eb.
      assert (s = s2) as -> by (destruct r as [[l2 [|]]|err2]; inversion E; reflexivity).
      etransitivity; eassumption.
    + inversion E; subst. eapply IH; reflexivity.
    + inversion E; subst. eapply IH; reflexivity.
Qed.


Lemma epochs_upto_S k :
  epochs_upto (Z.of_nat (S k)) = epochs_upto (Z.of_nat k) ++ [Z.of_nat (S k)].
Proof.
  unfold epochs_upto. rewrite !Nat2Z.id, seq_S, map_app. reflexivity.
Qed.

(** The checkpoints of the loop: one for every epoch entered that is one of
    the [save_epochs], holding the model state at the end of that epoch. *)
Lemma loop_after_store_writes (s0 : machine T) k : forall c s l,
  loop_after self k initial_locals s0 = (c, s) ->
  locals_of c = Some l ->
  store_writes (trace s)
  = store_writes (trace s0)
    ++ flat_map (fun e => periodic_checkpoint self e
                            (model_state (snd (loop_after self (Z.to_nat e)
                                                 initial_locals s0))))
         (epochs_upto (last_epoch k c)).
Proof.
  induction k as [|k IH]; intros c s l E Hl.
  - cbn [loop_after] in E. inversion E; subst. cbn. rewrite app_nil_r. reflexivity.
  - destruct (loop_after_S_inv self k _ _ _ _ _ E Hl)
      as [[e [-> Ek]] | [l1 [s1 [brk [Ek [Eb Hc]]]]]].
    + apply (IH _ _ _ Ek Hl).
    + pose proof (IH _ _ l1 Ek eq_refl) as IH1. cbn [last_epoch] in IH1.
      apply epoch_body_shows in Eb. destruct Eb as [_ [_ [Hst _]]].
      assert (Hlast : last_epoch (S k) c = Z.of_nat (S k)) by (subst c; destruct brk; reflexivity).
      rewrite Hlast, epochs_upto_S, flat_map_app, app_assoc, <- IH1, Hst.
      cbn [flat_map]. rewrite app_nil_r, Nat2Z.id, E. reflexivity.
Qed.

End LoopFrames.

(** ** The best model *)

Section BestModel.

Context {T : Collaborators} (self : Runner T).

(** While the loop has not failed: the validated epochs lie in [1 .. k]; as
    long as none was validated the locals are the first ones; afterwards the
    best epoch is a validated epoch whose distortion is below that of every
    earlier validated epoch and not above that of any later one, and the
    snapshot is the model state at the end of the best epoch. *)
Lemma best_invariant (s0 : machine T) k : forall c s l,
  val_history (trace s0) = [] ->
  loop_after self k initial_locals s0 = (c, s) ->
  locals_of c = Some l ->
  (forall e' d', In (e', d') (val_history (trace s)) -> 1 <= e' <= Z.of_nat k)
  /\ (val_history (trace s) = [] -> l = initial_locals)
  /\ (val_history (trace s) <> [] ->
      exists d,
        best_distortion l = Finite d
        /\ In (best_epoch l, d) (val_history (trace s))
        /\ (forall e' d', In (e', d') (val_history (trace s)) ->
              (e' < best_epoch l -> (d < d')%Q) /\ (best_epoch l <= e' -> (d <= d')%Q))
        /\ best_model_state l
           = Some (model_state (snd (loop_after self (Z.to_nat (best_epoch l))
                                       initial_locals s0)))).
Proof.
  induction k as [|k IH]; intros c s l H0 E Hl.
  - cbn [loop_after] in E. inversion E; subst. cbn [locals_of] in Hl. inversion Hl; subst.
    rewrite H0. split; [intros e' d' []|]. split; [reflexivity | intros H; contradiction].
  - destruct (loop_after_S_inv self k _ _ _ _ _ E Hl)
      as [[e [-> Ek]] | [l1 [s1 [brk [Ek [Eb Hc]]]]]].
    + destruct (IH _ _ _ H0 Ek Hl) as [Hb [Hn Hs]].
      split; [intros e' d' Hin; specialize (Hb _ _ Hin); lia|]. split; assumption.
    + destruct (IH _ _ l1 H0 Ek eq_refl) as [Hb [Hn Hs]]. clear IH.
      apply epoch_body_shows in Eb. destruct Eb as [_ [_ [_ Eb]]].
      set (e := Z.of_nat (S k)) in *.
      assert (Hsnd : snd (loop_after self (Z.to_nat e) initial_locals s0) = s).
      { unfold e. rewrite Nat2Z.id, E. reflexivity. }
      destruct (e mod val_every (args self) =? 0).
      * destruct Eb as [d [_ [Ex Eh]]]. injection Ex as El _. rewrite Eh.
        split.
        { intros e' d' Hin. apply in_app_or in Hin as [Hin|[Hin|[]]].
          - specialize (Hb _ _ Hin). lia.
          - inversion Hin; subst. unfold e. lia. }
        split; [intros H; apply app_eq_nil in H as [_ H]; discriminate|]. intros _.
        destruct (new_best_cases e d (model_state s) l1) as [[Hlt Hnew]|[Hlt Hnew]];
          rewrite Hnew in El; subst l.
        -- exists d. cbn [best_distortion best_epoch best_model_state].
           split; [reflexivity|]. split; [apply in_or_app; right; left; reflexivity|].
           split; [|rewrite Hsnd; reflexivity].
           intros e' d' Hin. apply in_app_or in Hin as [Hin|[Hin|[]]].
           ++ pose proof (Hb _ _ Hin) as Hbe.
              split; [intros _ | intros; unfold e in *; lia].
              destruct (val_history (trace s1)) as [|h hs] eqn:Eh1; [destruct Hin|].
              destruct (Hs ltac:(discriminate)) as [d1 [Hd1 [_ [Hmin _]]]].
              rewrite Hd1 in Hlt. cbn [lt_float] in Hlt. apply Qlt_bool_iff in Hlt.
              destruct (Hmin _ _ Hin) as [Hlo Hhi].
              destruct (Z.lt_ge_cases e' (best_epoch l1)) as [Hc1|Hc1].
              ** eapply Qlt_trans; [exact Hlt | apply Hlo; exact Hc1].
              ** eapply Qlt_le_trans; [exact Hlt | apply Hhi; exact Hc1].
           ++ inversion Hin; subst. split; [lia | intros _; apply Qle_refl].
        -- assert (Hne : val_history (trace s1) <> []).
           { intros Hnil. rewrite (Hn Hnil) in Hlt. cbn in Hlt. discriminate. }
           destruct (Hs Hne) as [d1 [Hd1 [Hin1 [Hmin Hsnap]]]].
           exists d1. split; [exact Hd1|]. split; [apply in_or_app; left; exact Hin1|].
           split; [|exact Hsnap].
           intros e' d' Hin. apply in_app_or in Hin as [Hin|[Hin|[]]].
           ++ apply Hmin. exact Hin.
           ++ inversion Hin; subst e' d'. pose proof (Hb _ _ Hin1) as Hbe.
              split; [unfold e; lia | intros _].
              rewrite Hd1 in Hlt. cbn [lt_float] in Hlt. apply Qlt_bool_false in Hlt.
              exact Hlt.
      * destruct Eb as [Ex Eh]. injection Ex as El _. subst l. rewrite Eh.
        split; [intros e' d' Hin; specialize (Hb _ _ Hin); lia|]. split; assumption.
Qed.

End BestModel.

(** ** After the loop *)

Section Finalization.

Context {T : Collaborators} (self : Runner T).

(** What follows the loop neither reads nor changes the gradients. *)
Lemma finalize_ignores_grads l g (s : machine T) :
  finalize self l (with_grads g s)
  = (fst (finalize self l s), with_grads g (snd (finalize self l s))).
Proof.
  unfold finalize, bind, emit, load_state_dict, bind, emit, set_model, raise.
  cbn [with_grads trace model_state model_grads optimizer_state scheduler_state].
  destruct (best_model_state l) as [m|]; [|reflexivity].
  rewrite !evaluate_spec.
  cbn [with_grads trace model_state model_grads optimizer_state scheduler_state].
  destruct (mean _) as [d|err]; [|reflexivity].
  unfold lift. rewrite !calculate_mAP_spec.
  unfold export_results, emit. rewrite !save_model_spec. reflexivity.
Qed.

Lemma finalize_None l (s : machine T) :
  best_model_state l = None ->
  finalize self l s
  = (Raise TypeError,
     traced [LogInfo (LogFinalEvaluation (best_epoch l)); LoadStateDict] s).
Proof.
  intros Hn. unfold finalize, bind, emit, load_state_dict, bind, emit, raise.
  rewrite Hn. unfold traced.
  cbn [trace model_state model_grads optimizer_state scheduler_state].
  rewrite <- app_assoc. reflexivity.
Qed.

(** The row [export_results] writes. *)
Lemma export_results_spec d p (s : machine T) :
  exists row,
    export_results self d p s
    = (Ok tt, traced [WriteResults (results_file (args self)) row] s)
    /\ (model (args self) = "upper" \/ model (args self) = "bounded" ->
        rd_dims row = dims (args self) * (dims (args self) + 1))
    /\ (model (args self) <> "upper" -> model (args self) <> "bounded" ->
        rd_dims row = dims (args self))
    /\ rd_distortion row = (d * 100)%Q
    /\ rd_mAP row = (p * 100)%Q
    /\ rd_manifold row = model (args self)
    /\ rd_data row = data (args self)
    /\ rd_run_id row = run_id (args self).
Proof.
  unfold export_results. eexists. split; [reflexivity|].
  cbn [rd_dims rd_distortion rd_mAP rd_manifold rd_data rd_run_id].
  destruct (String.eqb_spec (model (args self)) "upper") as [Hu|Hu];
    destruct (String.eqb_spec (model (args self)) "bounded") as [Hb|Hb];
    cbn [orb]; repeat split; auto; try (intros [H|H]; contradiction);
    try (intros H1 H2; contradiction).
Qed.

(** A finalization that returns: what it did. *)
Lemma finalize_Ok l (s s' : machine T) :
  finalize self l s = (Ok tt, s') ->
  exists m d row,
    best_model_state l = Some m
    /\ mean (split_distortions m (validate self)) = Ok d
    /\ model_state s' = m
    /\ trace s' = trace s ++ final_events self l m d row
    /\ (model (args self) = "upper" \/ model (args self) = "bounded" ->
        rd_dims row = dims (args self) * (dims (args self) + 1))
    /\ (model (args self) <> "upper" -> model (args self) <> "bounded" ->
        rd_dims row = dims (args self))
    /\ rd_distortion row = (d * 100)%Q
    /\ rd_mAP row
       = (mAP_metric T (distance_matrix_of m (arange (len_id2node T (id2node self))))
          * 100)%Q
    /\ rd_manifold row = model (args self)
    /\ rd_data row = data (args self)
    /\ rd_run_id row = run_id (args self).
Proof.
  destruct (best_model_state l) as [m|] eqn:Hm;
    [|rewrite (finalize_None l s Hm); discriminate].
  unfold finalize, bind at 1 2, emit at 1, load_state_dict, bind at 1, emit at 1, set_model.
  rewrite Hm. cbn [trace model_state model_grads optimizer_state scheduler_state].
  unfold bind at 1. rewrite evaluate_spec.
  cbn [trace model_state model_grads optimizer_state scheduler_state].
  destruct (mean (split_distortions m (validate self))) as [d|err] eqn:Ed;
    [|unfold lift; discriminate].
  unfold lift, bind at 1. rewrite calculate_mAP_spec.
  cbn [trace model_state model_grads optimizer_state scheduler_state traced].
  unfold bind at 1.
  match goal with
  | |- context [export_results self d ?p ?s1] =>
      destruct (export_results_spec d p s1) as [row [Ee Hrow]]; rewrite Ee
  end.
  unfold bind, emit. rewrite save_model_spec.
  unfold traced. cbn [trace model_state model_grads optimizer_state scheduler_state].
  intros E. inversion E; subst s'. clear E.
  exists m, d, row. split; [reflexivity|]. split; [exact Ed|].
  unfold traced. cbn [trace model_state model_grads optimizer_state scheduler_state].
  split; [reflexivity|]. split; [|exact Hrow].
  unfold final_events, save_events. rewrite <- !app_assoc. reflexivity.
Qed.


Lemma eval_events_mAP all_nodes : forallb eval_event (mAP_events (T:=T) all_nodes) = true.
Proof.
  unfold mAP_events. cbn [forallb eval_event andb].
  generalize all_nodes at 1. intros nodes.
  induction all_nodes as [|n ns IH]; [reflexivity|]. cbn [map forallb eval_event andb].
  exact IH.
Qed.

Lemma final_events_shows l m d row :
  store_writes (final_events self l m d row)
  = [WriteResults (results_file (args self)) row;
     TorchSave (checkpoint_name self (best_epoch l)) m (id2node self)]
  /\ results_written (final_events self l m d row)
     = [WriteResults (results_file (args self)) row].
Proof.
  unfold final_events, store_writes, results_written. rewrite !filter_app.
  rewrite !(filter_vanishes eval_event _ (evaluate_events (validate self)))
    by (try apply eval_events_evaluate; intros [] H; try discriminate H; reflexivity).
  rewrite !(filter_vanishes eval_event _ (mAP_events _))
    by (try apply eval_events_mAP; intros [] H; try discriminate H; reflexivity).
  split; reflexivity.
Qed.

(** The stores after a run that completes. *)
Lemma run_Ok (s0 s' : machine T) :
  run self s0 = (Ok tt, s') ->
  exists c s l m d row,
    loop_after self (Z.to_nat (epochs (args self))) initial_locals s0 = (c, s)
    /\ locals_of c = Some l
    /\ finalize self l s = (Ok tt, s')
    /\ best_model_state l = Some m
    /\ mean (split_distortions m (validate self)) = Ok d
    /\ trace s' = trace s ++ final_events self l m d row
    /\ (model (args self) = "upper" \/ model (args self) = "bounded" ->
        rd_dims row = dims (args self) * (dims (args self) + 1))
    /\ (model (args self) <> "upper" -> model (args self) <> "bounded" ->
        rd_dims row = dims (args self))
    /\ rd_distortion row = (d * 100)%Q
    /\ rd_mAP row
       = (mAP_metric T (distance_matrix_of m (arange (len_id2node T (id2node self))))
          * 100)%Q
    /\ rd_manifold row = model (args self)
    /\ rd_data row = data (args self)
    /\ rd_run_id row = run_id (args self).
Proof.
  rewrite run_loop_after.
  destruct (loop_after self (Z.to_nat (epochs (args self))) initial_locals s0)
    as [[l|e l|err] s] eqn:El; intros E; [| |discriminate].
  - destruct (finalize_Ok l s s' E) as [m [d [row [Hm [Hd [_ [Htr Hrow]]]]]]].
    exists (Running l), s, l, m, d, row. repeat (split; [solve [auto]|]). exact Hrow.
  - destruct (finalize_Ok l s s' E) as [m [d [row [Hm [Hd [_ [Htr Hrow]]]]]]].
    exists (Stopped e l), s, l, m, d, row. repeat (split; [solve [auto]|]). exact Hrow.
Qed.

End Finalization.

(** * The claims *)

(** C1, as amended.  The early-stopping test is part of the validation block,
    so the loop can only be left at a validated epoch.  When the loop has not
    failed after [k] passes and its best epoch is [b], a validated epoch,
    then with [stop] the first multiple of [val_every] from [b + 3 * patience]
    on: the loop was left by [break] in epoch [stop] if [stop <= k], and it
    is still running otherwise.  In particular [stop] is [b + 3 * patience]
    when [val_every] divides [3 * patience]. *)
Theorem early_stopping_epoch (T : Collaborators) (self : Runner T) (k : nat)
    (s0 s : machine T) (c : control T) (l : locals T) :
  0 < val_every (args self) ->
  0 <= patience (args self) ->
  loop_after self k initial_locals s0 = (c, s) ->
  locals_of c = Some l ->
  1 <= best_epoch l ->
  (stop_epoch (val_every (args self)) (patience (args self)) (best_epoch l) <= Z.of_nat k ->
   c = Stopped (stop_epoch (val_every (args self)) (patience (args self)) (best_epoch l)) l)
  /\ (Z.of_nat k < stop_epoch (val_every (args self)) (patience (args self)) (best_epoch l) ->
      c = Running l)
  /\ stop_epoch (val_every (args self)) (patience (args self)) (best_epoch l)
       mod val_every (args self) = 0
  /\ best_epoch l + 3 * patience (args self)
     <= stop_epoch (val_every (args self)) (patience (args self)) (best_epoch l)
     < best_epoch l + 3 * patience (args self) + val_every (args self)
  /\ ((3 * patience (args self)) mod val_every (args self) = 0 ->
      stop_epoch (val_every (args self)) (patience (args self)) (best_epoch l)
      = best_epoch l + 3 * patience (args self)).
Proof.
  intros HV HP E Hl Hb.
  pose proof (early_stop_invariant self k s0 c s l HV E Hl) as Inv.
  set (V := val_every (args self)) in *. set (P := patience (args self)) in *.
  set (b := best_epoch l) in *.
  assert (HbV : b mod V = 0).
  { destruct c as [l1|e l1|err]; cbn [locals_of] in Hl; [| |discriminate].
    - destruct Inv as [[-> _]|[_ [H _]]]; [cbn in Hb; lia | exact H].
    - destruct Inv as [_ [_ [H _]]]. exact H. }
  destruct (stop_epoch_spec V P b HV HbV) as [Hs1 Hs2].
  set (stop := stop_epoch V P b) in *.
  assert (Hdiv : (3 * P) mod V = 0 -> stop = b + 3 * P).
  { intros H3. apply (multiples_in_window V (b + 3 * P)); auto; [|lia].
    rewrite Z.add_mod, HbV, H3 by lia. reflexivity. }
  destruct c as [l1|e l1|err]; cbn [locals_of] in Hl; [| |discriminate];
    inversion Hl; subst l1.
  - destruct Inv as [[Hi _]|[Hb1 [_ Hb3]]];
      [unfold b in Hb; rewrite Hi in Hb; cbn in Hb; lia|].
    assert (Z.of_nat k < stop).
    { pose proof (Z.div_mod (Z.of_nat k) V ltac:(lia)) as Dk.
      pose proof (Z.mod_pos_bound (Z.of_nat k) V HV) as Bk.
      pose proof (Z.div_mod stop V ltac:(lia)) as Ds.
      rewrite Hs1, Z.add_0_r in Ds.
      assert (Z.of_nat k / V < stop / V) by nia. nia. }
    repeat split; auto; lia.
  - destruct Inv as [Hb1 [Hek [_ [HeV [Hge Hlt]]]]].
    assert (e = stop).
    { apply (multiples_in_window V (b + 3 * P)); auto; lia. }
    subst e. repeat split; auto; lia.
Qed.

Lemma early_stopping_epoch_witness :
  exists l s,
    loop_after (toy_runner flat_profile 100 (toy_args 10 1 4 2 1 "upper")) 10
      initial_locals (boot (T:=toy flat_profile 100) 0 0 0 []) = (Stopped 6 l, s)
    /\ best_epoch l = 2.
Proof.
  pose (self := toy_runner flat_profile 100 (toy_args 10 1 4 2 1 "upper")).
  pose (out := loop_after self 10 initial_locals (boot (T:=toy flat_profile 100) 0 0 0 [])).
  assert (Hl : exists l, locals_of (fst out) = Some l /\ best_epoch l = 2).
  { eexists. split; vm_compute; reflexivity. }
  destruct Hl as [l [Hl Hb]].
  exists l, (snd out).
  assert (E : loop_after self 10 initial_locals (boot (T:=toy flat_profile 100) 0 0 0 [])
              = (fst out, snd out)) by apply surjective_pairing.
  destruct (early_stopping_epoch (toy flat_profile 100) self 10 _ _ _ l
              ltac:(vm_compute; reflexivity) ltac:(vm_compute; discriminate) E Hl
              ltac:(rewrite Hb; lia)) as [Hstop _].
  rewrite Hb in Hstop. split; [|exact Hb].
  fold self. rewrite E. f_equal. apply Hstop. vm_compute. discriminate.
Defined.

(** C1, as stated, fails: with validation every 2 epochs and patience 1, the
    best epoch is 2 and the loop is left in epoch 6, not in epoch 2 + 3. *)
Lemma early_stopping_counterexample :
  exists l s,
    loop_after (toy_runner flat_profile 100 (toy_args 10 1 4 2 1 "upper")) 10
      initial_locals (boot (T:=toy flat_profile 100) 0 0 0 []) = (Stopped 6 l, s)
    /\ best_epoch l = 2
    /\ patience (args (toy_runner flat_profile 100 (toy_args 10 1 4 2 1 "upper"))) = 1
    /\ 6 <> 2 + 3 * 1.
Proof.
  eexists. eexists. split; [vm_compute; reflexivity|].
  split; [reflexivity|]. split; [reflexivity|]. discriminate.
Qed.



(** C10.  With a positive accumulation window, in an epoch whose manifold
    check passes: the model and the optimizer after the epoch are those after
    the batches of its complete windows alone, so the gradients of a partial
    trailing window reach no optimizer step; the epoch does not depend on the
    gradients it starts with, which it zeroes first; and what follows the
    loop neither reads nor changes the gradients. *)
Theorem trailing_gradients_discarded (T : Collaborators) (self : Runner T)
    (batches : list Tensor) (epoch_num : Z) (s : machine T) :
  0 < grad_accum_steps (args self) ->
  fst (fst (check_all_points T (model_state s))) = true ->
  (model_state (snd (train_epoch self batches epoch_num s))
   = model_state (snd (train_epoch self
                         (complete_windows (grad_accum_steps (args self)) batches)
                         epoch_num s))
   /\ optimizer_state (snd (train_epoch self batches epoch_num s))
      = optimizer_state (snd (train_epoch self
                                (complete_windows (grad_accum_steps (args self)) batches)
                                epoch_num s)))
  /\ (forall g, train_epoch self batches epoch_num (with_grads g s)
                = train_epoch self batches epoch_num s)
  /\ (forall g l, finalize self l (with_grads g s)
                  = (fst (finalize self l s), with_grads g (snd (finalize self l s)))).
Proof.
  intros Hpos Hok. split; [|split].
  - destruct (train_epoch_after_batches self epoch_num s Hok) as [s0 Hs0].
    pose proof (Hs0 batches) as [A1 [B1 _]].
    pose proof (Hs0 (complete_windows (grad_accum_steps (args self)) batches))
      as [A2 [B2 _]].
    pose proof (train_batches_trailing self
                  (complete_windows (grad_accum_steps (args self)) batches)
                  (skipn (Z.to_nat (grad_accum_steps (args self)
                                    * (len batches / grad_accum_steps (args self))))
                     batches)
                  (0%Q, 0%Q) s0
                  (fun i => trailing_batches_no_update self batches i Hpos))
      as [A3 [B3 _]].
    assert (Hsplit : complete_windows (grad_accum_steps (args self)) batches
                     ++ skipn (Z.to_nat (grad_accum_steps (args self)
                                         * (len batches / grad_accum_steps (args self))))
                          batches
                     = batches) by apply firstn_skipn.
    rewrite Hsplit in A3, B3. split; congruence.
  - intros g. apply train_epoch_zeroes_grads. exact Hok.
  - intros g l. apply finalize_ignores_grads.
Qed.

Lemma trailing_gradients_discarded_witness :
  model_state (snd (train_epoch (toy_runner flat_profile 100 (toy_args 10 2 4 2 1 "upper"))
                      three_batches 1 (boot (T:=toy flat_profile 100) 0 0 0 [])))
  = model_state (snd (train_epoch (toy_runner flat_profile 100 (toy_args 10 2 4 2 1 "upper"))
                        [toy_batch 0; toy_batch 5] 1
                        (boot (T:=toy flat_profile 100) 0 0 0 []))).
Proof.
  exact (proj1 (proj1 (trailing_gradients_discarded (toy flat_profile 100)
                         (toy_runner flat_profile 100 (toy_args 10 2 4 2 1 "upper"))
                         three_batches 1 (boot (T:=toy flat_profile 100) 0 0 0 [])
                         ltac:(vm_compute; reflexivity) ltac:(vm_compute; reflexivity)))).
Defined.

(** C6, as amended.  In an epoch that completes, the [train/loss] series of
    the telemetry gets one point, for this epoch; its value is the sum of the
    batch losses of the epoch, each already divided by [grad_accum_steps],
    over the number of batches, that is the mean of the batch losses divided
    by [grad_accum_steps]; the results line logged in a validated epoch
    carries the same value. *)
Theorem train_loss_recorded (T : Collaborators) (self : Runner T) (epoch : Z)
    (l : locals T) (s s2 : machine T) (x : locals T * bool) :
  epoch_body self epoch l s = (Ok x, s2) ->
  exists evs v,
    trace s2 = trace s ++ evs
    /\ train_loss_series evs = [(epoch, v)]
    /\ len (batch_losses evs) = len (train self epoch)
    /\ (v == Qsum (map (fun loss => loss / inject_Z (grad_accum_steps (args self)))
                     (batch_losses evs))
             / inject_Z (len (train self epoch)))%Q
    /\ (v == Qsum (batch_losses evs) / inject_Z (len (train self epoch))
             / inject_Z (grad_accum_steps (args self)))%Q
    /\ (forall e' tl d, In (LogInfo (LogResults e' tl d)) evs -> tl = v).
Proof.
  intros E. apply epoch_body_spec in E.
  destruct E as [v [s1 [Etr [_ [_ [_ Eb]]]]]].
  destruct (train_epoch_Ok_inv self _ _ _ _ _ Etr) as [Hacc [Hok Hne]].
  destruct (train_epoch_spec self (train self epoch) epoch s Hacc Hok)
    as [losses [r [s1' [tail [E1 [Hlen [Htr [_ Hcons]]]]]]]].
  rewrite Etr in E1. inversion E1; subst r s1'. clear E1.
  destruct (Hcons Hne) as [v' [avg [Hv [-> Hval]]]]. inversion Hv; subst v'. clear Hv.
  destruct (training_shows (T:=T) (grad_accum_steps (args self)) (max_grad_norm (args self))
              (train self epoch) losses avg epoch Hlen) as [_ [TL TS]].
  destruct (after_training_shows self epoch v s1) as [_ [AL [AS _]]].
  assert (Hmean : forall evs : list (event T), batch_losses evs = losses ->
            len (batch_losses evs) = len (train self epoch)
            /\ (v == Qsum (map (fun loss => loss / inject_Z (grad_accum_steps (args self)))
                             (batch_losses evs))
                     / inject_Z (len (train self epoch)))%Q
            /\ (v == Qsum (batch_losses evs) / inject_Z (len (train self epoch))
                     / inject_Z (grad_accum_steps (args self)))%Q).
  { intros evs ->. split; [unfold len; congruence|]. split; [exact Hval|].
    rewrite Hval, Qsum_map_div. unfold Qdiv. ring. }
  set (tevs := prologue_events ++ batches_events (grad_accum_steps (args self))
                                   (max_grad_norm (args self)) 0 (train self epoch) losses
                ++ [AddScalar "grad_norm/avg" avg epoch]) in *.
  assert (Hlog1 : forall e' tl d, ~ In (LogInfo (T:=T) (LogResults e' tl d)) tevs).
  { intros e' tl d Hin. unfold tevs in Hin. rewrite !in_app_iff in Hin.
    destruct Hin as [Hin | [Hin | Hin]].
    - cbn in Hin. repeat (destruct Hin as [Hin|Hin]; [discriminate|]). exact Hin.
    - pose proof (training_calls_batches_events (T:=T) (grad_accum_steps (args self))
                    (max_grad_norm (args self)) (train self epoch) losses 0) as F.
      rewrite forallb_forall in F. specialize (F _ Hin). discriminate.
    - cbn in Hin. destruct Hin as [Hin|Hin]; [discriminate | exact Hin]. }
  assert (Hlog2 : forall e' tl d,
            ~ In (LogInfo (LogResults e' tl d)) (after_training_events self epoch v s1)).
  { intros e' tl d Hin. unfold after_training_events, save_events in Hin.
    destruct (projected_points T (model_state s1));
      destruct (epoch mod save_epochs (args self) =? 0); cbn in Hin;
      repeat (destruct Hin as [Hin|Hin]; [discriminate|]); exact Hin. }
  destruct (epoch mod val_every (args self) =? 0).
  - destruct Eb as [d [_ [_ Etr2]]].
    destruct (validation_shows self epoch v d (model_state s1) l) as [_ [VL [VS _]]].
    exists (tevs ++ after_training_events self epoch v s1
            ++ validation_events self epoch v d (model_state s1) l), v.
    split; [rewrite Etr2, Htr, <- app_assoc; reflexivity|].
    split; [rewrite !train_loss_series_app, TS, AS, VS; reflexivity|].
    destruct (Hmean (tevs ++ after_training_events self epoch v s1
                     ++ validation_events self epoch v d (model_state s1) l))
      as [M1 [M2 M3]].
    { rewrite !batch_losses_app, TL, AL, VL, !app_nil_r. reflexivity. }
    split; [exact M1|]. split; [exact M2|]. split; [exact M3|].
    intros e' tl d' Hin. rewrite !in_app_iff in Hin.
    destruct Hin as [Hin | [Hin | Hin]];
      [exfalso; eapply Hlog1; exact Hin | exfalso; eapply Hlog2; exact Hin |].
    unfold validation_events in Hin. rewrite !in_app_iff in Hin.
    destruct Hin as [Hin | [Hin | [Hin | Hin]]].
    + pose proof (eval_events_evaluate (T:=T) (validate self)) as F.
      rewrite forallb_forall in F. specialize (F _ Hin). discriminate.
    + cbn in Hin. destruct Hin as [Hin|[Hin|[Hin|Hin]]];
        try discriminate; [|contradiction]. inversion Hin. reflexivity.
    + destruct (lt_float d (best_distortion l)); cbn in Hin;
        [destruct Hin as [Hin|Hin]; [discriminate | contradiction] | contradiction].
    + destruct (early_stop _ _ _); cbn in Hin;
        [destruct Hin as [Hin|Hin]; [discriminate | contradiction] | contradiction].
  - destruct Eb as [_ Etr2].
    exists (tevs ++ after_training_events self epoch v s1), v.
    split; [rewrite Etr2, Htr, <- app_assoc; reflexivity|].
    split; [rewrite !train_loss_series_app, TS, AS; reflexivity|].
    destruct (Hmean (tevs ++ after_training_events self epoch v s1)) as [M1 [M2 M3]].
    { rewrite !batch_losses_app, TL, AL, !app_nil_r. reflexivity. }
    split; [exact M1|]. split; [exact M2|]. split; [exact M3|].
    intros e' tl d' Hin. rewrite !in_app_iff in Hin.
    destruct Hin as [Hin | Hin];
      [exfalso; eapply Hlog1; exact Hin | exfalso; eapply Hlog2; exact Hin].
Qed.

Lemma train_loss_recorded_witness :
  exists evs v,
    trace (snd (epoch_body (toy_runner flat_profile 100 (toy_args 10 2 4 2 1 "upper")) 1
                  initial_locals (boot (T:=toy flat_profile 100) 0 0 0 [])))
    = evs
    /\ train_loss_series evs = [(1, v)]
    /\ (v == Qsum (batch_losses evs) / inject_Z 2 / inject_Z 2)%Q.
Proof.
  pose (self := toy_runner flat_profile 100 (toy_args 10 2 4 2 1 "upper")).
  pose (out := epoch_body self 1 initial_locals (boot (T:=toy flat_profile 100) 0 0 0 [])).
  assert (E : epoch_body self 1 initial_locals (boot (T:=toy flat_profile 100) 0 0 0 [])
              = (Ok (initial_locals, false), snd out)).
  { vm_compute. reflexivity. }
  destruct (train_loss_recorded (toy flat_profile 100) self 1 _ _ _ _ E)
    as [evs [v [Htr [Hs [_ [_ [Hv _]]]]]]].
  exists evs, v. fold self. fold out. rewrite Htr. cbn [boot trace app].
  split; [reflexivity|]. split; [exact Hs | exact Hv].
Defined.

(** C6, as stated, fails: with an accumulation window of 2 and two batches
    whose losses are 5 and 5, the recorded training loss is 5/2, not the mean
    5 of the batch losses. *)
Lemma train_loss_counterexample :
  exists x s2 v,
    epoch_body (toy_runner flat_profile 100 (toy_args 10 2 4 2 1 "upper")) 1
      initial_locals (boot (T:=toy flat_profile 100) 0 0 0 []) = (Ok x, s2)
    /\ batch_losses (trace s2) = [5%Q; 5%Q]
    /\ train_loss_series (trace s2) = [(1, v)]
    /\ (v == 5 # 2)%Q
    /\ ~ (v == Qsum [5%Q; 5%Q] / inject_Z 2)%Q.
Proof.
  do 3 eexists. split; [vm_compute; reflexivity|].
  split; [vm_compute; reflexivity|]. split; [vm_compute; reflexivity|].
  split; [reflexivity | intros H; vm_compute in H; discriminate].
Qed.

(** C7.  An evaluation pass over a split returns the mean of the distortions
    of all pairs of the split, which is the mean of the batch means weighted
    by the number of values of each batch, whatever the sizes of the batches;
    it changes nothing but the trace. *)
Theorem evaluate_weighted_mean (T : Collaborators) (split : list Tensor)
    (s : machine T) :
  split_distortions (model_state s) split <> [] ->
  exists d,
    evaluate split s = (Ok d, traced (evaluate_events split) s)
    /\ (d == Qsum (split_distortions (model_state s) split)
             / inject_Z (len (split_distortions (model_state s) split)))%Q
    /\ (d == Qsum (map (fun batch =>
                          inject_Z (len (batch_distortions (model_state s) batch))
                          * (Qsum (batch_distortions (model_state s) batch)
                             / inject_Z (len (batch_distortions (model_state s) batch))))
                       split)
             / inject_Z (Z.of_nat
                           (list_sum (map (fun batch =>
                                             List.length
                                               (batch_distortions (model_state s) batch))
                                          split))))%Q.
Proof.
  intros Hne. rewrite evaluate_spec.
  destruct (split_distortions (model_state s) split) as [|x xs] eqn:Ed; [contradiction|].
  rewrite <- Ed. exists (Qsum (split_distortions (model_state s) split)
                         / inject_Z (len (split_distortions (model_state s) split)))%Q.
  split; [rewrite Ed; reflexivity|]. split; [reflexivity|].
  clear Ed Hne x xs.
  assert (Hsum : (Qsum (split_distortions (model_state s) split)
                  == Qsum (map (fun batch =>
                          inject_Z (len (batch_distortions (model_state s) batch))
                          * (Qsum (batch_distortions (model_state s) batch)
                             / inject_Z (len (batch_distortions (model_state s) batch))))
                       split))%Q).
  { induction split as [|b bs IH]; [reflexivity|].
    unfold split_distortions in *. cbn [flat_map map Qsum].
    rewrite Qsum_app, IH.
    destruct (batch_distortions (model_state s) b) as [|y ys] eqn:Eb.
    - cbn. ring.
    - rewrite <- Eb. field. unfold len. rewrite Eb. cbn [List.length].
      intros H. unfold Qeq, inject_Z in H. cbn [Qnum Qden] in H. lia. }
  assert (Hlen : len (split_distortions (model_state s) split)
                 = Z.of_nat (list_sum (map (fun batch =>
                                             List.length
                                               (batch_distortions (model_state s) batch))
                                          split))).
  { clear Hsum. unfold len, split_distortions. f_equal.
    induction split as [|b bs IH]; [reflexivity|].
    cbn [flat_map map list_sum]. rewrite length_app, IH. reflexivity. }
  rewrite Hsum, Hlen. reflexivity.
Qed.

Lemma evaluate_weighted_mean_witness :
  exists d,
    evaluate [toy_batch 0; [[7%Q; 8%Q; 1%Q]]] (boot (T:=toy dip_profile 100) 0 0 0 [])
    = (Ok d, traced (evaluate_events [toy_batch 0; [[7%Q; 8%Q; 1%Q]]])
               (boot (T:=toy dip_profile 100) 0 0 0 []))
    /\ (d == 3)%Q.
Proof.
  destruct (evaluate_weighted_mean (toy dip_profile 100)
              [toy_batch 0; [[7%Q; 8%Q; 1%Q]]] (boot (T:=toy dip_profile 100) 0 0 0 [])
              ltac:(vm_compute; discriminate)) as [d [E [Hd _]]].
  exists d. split; [exact E|]. rewrite Hd. vm_compute. reflexivity.
Defined.



(** C4.  The manifold check is the first call of every epoch, before any
    batch.  When the loop is running after [k] epochs and a point of the
    model is outside the manifold, epoch [k + 1] raises an [AssertionError]
    whose message shows the reason and the point; nothing but the check is
    traced, so no batch of the epoch is processed and the model is left as
    it was; the loop stays failed whatever the number of epochs, and the run
    ends with that error, with no evaluation, export or checkpoint after
    it. *)
Theorem manifold_violation_aborts (T : Collaborators) (self : Runner T) (k : nat)
    (s0 s : machine T) (l : locals T) (point : option (Point T))
    (reason : option string) :
  loop_after self k initial_locals s0 = (Running l, s) ->
  check_all_points T (model_state s) = (false, point, reason) ->
  (forall batches epoch_num (s1 s1' : machine T) r,
      train_epoch self batches epoch_num s1 = (r, s1') ->
      exists rest, trace s1' = trace s1 ++ CheckAllPoints :: rest)
  /\ (forall batches epoch_num,
        train_epoch self batches epoch_num s
        = (Raise (AssertionError
                    (outside_manifold_message reason (option_map (str_point T) point))),
           traced [CheckAllPoints] s))
  /\ contains (opt_str reason)
       (outside_manifold_message reason (option_map (str_point T) point))
  /\ contains (opt_str (option_map (str_point T) point))
       (outside_manifold_message reason (option_map (str_point T) point))
  /\ (forall n,
        loop_after self (S k + n) initial_locals s0
        = (Failed (AssertionError
                     (outside_manifold_message reason (option_map (str_point T) point))),
           traced [CheckAllPoints] s))
  /\ (Z.of_nat k < epochs (args self) ->
      run self s0
      = (Raise (AssertionError
                  (outside_manifold_message reason (option_map (str_point T) point))),
         traced [CheckAllPoints] s)).
Proof.
  intros E Hc.
  assert (Hloop : forall n,
        loop_after self (S k + n) initial_locals s0
        = (Failed (AssertionError
                     (outside_manifold_message reason (option_map (str_point T) point))),
           traced [CheckAllPoints] s)).
  { intros n. apply loop_after_left; [|intros l1; discriminate].
    rewrite loop_after_S, E. unfold epoch_body, bind at 1.
    rewrite (train_epoch_violation self _ _ _ _ _ Hc). reflexivity. }
  split; [intros batches epoch_num s1 s1' r; apply train_epoch_check_first|].
  split; [intros batches epoch_num; apply train_epoch_violation; exact Hc|].
  split; [apply outside_manifold_message_contains|].
  split; [apply outside_manifold_message_contains|].
  split; [exact Hloop|].
  intros Hk. rewrite run_loop_after.
  replace (Z.to_nat (epochs (args self)))
    with (S k + (Z.to_nat (epochs (args self)) - S k))%nat by lia.
  rewrite Hloop. reflexivity.
Qed.

Lemma manifold_violation_aborts_witness :
  exists s,
    run (toy_runner flat_profile 4 (toy_args 10 1 4 2 1 "upper"))
      (boot (T:=toy flat_profile 4) 0 0 0 [])
    = (Raise (AssertionError
                (outside_manifold_message (Some "norm above bound") (Some "4"))),
       traced [CheckAllPoints] s)
    /\ fst (loop_after (toy_runner flat_profile 4 (toy_args 10 1 4 2 1 "upper")) 2
              initial_locals (boot (T:=toy flat_profile 4) 0 0 0 []))
       = Running (Build_locals (toy flat_profile 4) (Finite (10 # 10)) 2 (Some 4)).
Proof.
  pose (self := toy_runner flat_profile 4 (toy_args 10 1 4 2 1 "upper")).
  pose (out := loop_after self 2 initial_locals (boot (T:=toy flat_profile 4) 0 0 0 [])).
  assert (E : loop_after self 2 initial_locals (boot (T:=toy flat_profile 4) 0 0 0 [])
              = (Running (Build_locals (toy flat_profile 4) (Finite (10 # 10)) 2 (Some 4)),
                 snd out)).
  { vm_compute. reflexivity. }
  exists (snd out). fold self. split; [|rewrite E; reflexivity].
  apply (manifold_violation_aborts (toy flat_profile 4) self 2 _ _ _
           (Some 4) (Some "norm above bound") E);
    [vm_compute; reflexivity | vm_compute; reflexivity].
Defined.



(** C8.  The row [export_results] writes has as its dimensionality
    [d * (d + 1)] when the manifold kind is ["upper"] or ["bounded"], the two
    kinds parameterized by a symmetric or triangular matrix, and [d] for
    every other kind, and as its distortion and mAP the given values times
    100.  A run that completes writes one row: that of the distortion and of
    the mAP of the restored best model. *)
Theorem exported_row (T : Collaborators) (self : Runner T) (s0 s' : machine T) :
  run self s0 = (Ok tt, s') ->
  (forall d p (s : machine T),
      exists row,
        export_results self d p s
        = (Ok tt, traced [WriteResults (results_file (args self)) row] s)
        /\ (model (args self) = "upper" \/ model (args self) = "bounded" ->
            rd_dims row = dims (args self) * (dims (args self) + 1))
        /\ (model (args self) <> "upper" -> model (args self) <> "bounded" ->
            rd_dims row = dims (args self))
        /\ rd_distortion row = (d * 100)%Q
        /\ rd_mAP row = (p * 100)%Q
        /\ rd_manifold row = model (args self)
        /\ rd_data row = data (args self)
        /\ rd_run_id row = run_id (args self))
  /\ exists c s l m d row,
      loop_after self (Z.to_nat (epochs (args self))) initial_locals s0 = (c, s)
      /\ locals_of c = Some l
      /\ best_model_state l = Some m
      /\ mean (split_distortions m (validate self)) = Ok d
      /\ results_written (trace s')
         = results_written (trace s0) ++ [WriteResults (results_file (args self)) row]
      /\ (model (args self) = "upper" \/ model (args self) = "bounded" ->
          rd_dims row = dims (args self) * (dims (args self) + 1))
      /\ (model (args self) <> "upper" -> model (args self) <> "bounded" ->
          rd_dims row = dims (args self))
      /\ rd_distortion row = (d * 100)%Q
      /\ rd_mAP row
         = (mAP_metric T (distance_matrix_of m (arange (len_id2node T (id2node self))))
            * 100)%Q
      /\ rd_manifold row = model (args self)
      /\ rd_data row = data (args self)
      /\ rd_run_id row = run_id (args self).
Proof.
  intros E. split; [intros d p s; apply export_results_spec|].
  destruct (run_Ok self s0 s' E)
    as [c [s [l [m [d [row [El [Hl [_ [Hm [Hd [Htr Hrow]]]]]]]]]]]].
  exists c, s, l, m, d, row.
  split; [exact El|]. split; [exact Hl|]. split; [exact Hm|]. split; [exact Hd|].
  split; [|exact Hrow].
  rewrite Htr. unfold results_written at 1. rewrite filter_app.
  fold (results_written (trace s)). fold (results_written (final_events self l m d row)).
  destruct (final_events_shows self l m d row) as [_ ->]. f_equal.
  unfold results_written. apply (emits_only_filter not_result).
  - intros e He. unfold not_result in He. now apply negb_true_iff in He.
  - eapply loop_after_emits. exact El.
Qed.

(** C9.  The name of the checkpoint of epoch [e] is the run id followed by
    ["-best-"], [e] and ["ep"].  At every point of a run whose loop has not
    failed, the checkpoint store was written to in every epoch entered that
    is divisible by [save_epochs], and in no other: the model state at the
    end of that epoch with the node index map, under the name of that epoch.
    A run that completes then wrote, after the row of results, the best model
    state with the node index map under the name of the best epoch. *)
Theorem checkpoints_written (T : Collaborators) (self : Runner T) (s0 s' : machine T) :
  run self s0 = (Ok tt, s') ->
  (forall e, checkpoint_name self e
             = (run_id (args self) ++ "-best-" ++ str_int e ++ "ep")%string)
  /\ (forall k c s l,
        loop_after self k initial_locals s0 = (c, s) ->
        locals_of c = Some l ->
        store_writes (trace s)
        = store_writes (trace s0)
          ++ flat_map (fun e =>
                         if e mod save_epochs (args self) =? 0
                         then [TorchSave (checkpoint_name self e)
                                 (model_state (snd (loop_after self (Z.to_nat e)
                                                      initial_locals s0)))
                                 (id2node self)]
                         else [])
               (epochs_upto (last_epoch k c)))
  /\ exists c s l m row,
      loop_after self (Z.to_nat (epochs (args self))) initial_locals s0 = (c, s)
      /\ locals_of c = Some l
      /\ best_model_state l = Some m
      /\ store_writes (trace s')
         = store_writes (trace s)
           ++ [WriteResults (results_file (args self)) row;
               TorchSave (checkpoint_name self (best_epoch l)) m (id2node self)].
Proof.
  intros E. split; [reflexivity|].
  split; [intros k c s l El Hl; apply (loop_after_store_writes self s0 k c s l El Hl)|].
  destruct (run_Ok self s0 s' E)
    as [c [s [l [m [d [row [El [Hl [_ [Hm [_ [Htr _]]]]]]]]]]]].
  exists c, s, l, m, row.
  split; [exact El|]. split; [exact Hl|]. split; [exact Hm|].
  rewrite Htr, store_writes_app.
  destruct (final_events_shows self l m d row) as [-> _]. reflexivity.
Qed.

Lemma exported_row_witness :
  exists row,
    results_written
      (trace (snd (run (toy_runner dip_profile 100 (toy_args 10 1 4 2 1 "upper"))
                     (boot (T:=toy dip_profile 100) 0 0 0 []))))
    = [WriteResults (T:=toy dip_profile 100) "out.csv" row]
    /\ rd_dims row = 12.
Proof.
  pose (self := toy_runner dip_profile 100 (toy_args 10 1 4 2 1 "upper")).
  pose (out := run self (boot (T:=toy dip_profile 100) 0 0 0 [])).
  assert (E : run self (boot (T:=toy dip_profile 100) 0 0 0 []) = (Ok tt, snd out))
    by (vm_compute; reflexivity).
  destruct (exported_row (toy dip_profile 100) self _ _ E)
    as [_ [c [s [l [m [d [row [_ [_ [_ [_ [Hres [Hdim _]]]]]]]]]]]]].
  exists row. split; [exact Hres|]. apply Hdim. left. reflexivity.
Defined.

Lemma checkpoints_written_witness :
  exists row,
    store_writes
      (trace (snd (run (toy_runner dip_profile 100 (toy_args 10 1 4 2 1 "upper"))
                     (boot (T:=toy dip_profile 100) 0 0 0 []))))
    = [TorchSave (T:=toy dip_profile 100) "r1-best-4ep" 8 ["a"; "b"; "c"];
       WriteResults "out.csv" row;
       TorchSave (T:=toy dip_profile 100) "r1-best-2ep" 4 ["a"; "b"; "c"]].
Proof.
  pose (self := toy_runner dip_profile 100 (toy_args 10 1 4 2 1 "upper")).
  pose (out := run self (boot (T:=toy dip_profile 100) 0 0 0 [])).
  assert (E : run self (boot (T:=toy dip_profile 100) 0 0 0 []) = (Ok tt, snd out))
    by (vm_compute; reflexivity).
  destruct (checkpoints_written (toy dip_profile 100) self _ _ E)
    as [_ [Hloop [c [s [l [m [row [El [Hl [Hm Hst]]]]]]]]]].
  exists row. fold self. fold out. rewrite Hst, (Hloop _ _ _ _ El Hl). clear Hst E Hloop.
  pose proof (f_equal fst El) as Hc. cbn [fst] in Hc. vm_compute in Hc. subst c.
  cbn [locals_of] in Hl. inversion Hl; subst l. clear Hl.
  cbn [best_model_state] in Hm. inversion Hm; subst m. clear Hm.
  vm_compute. reflexivity.
Defined.

(** * More properties of the code *)

(** ** Run ids (src/nodeprores.py) *)

Lemma list_ascii_of_string_app (a b : string) :
  list_ascii_of_string (a ++ b)%string = list_ascii_of_string a ++ list_ascii_of_string b.
Proof. induction a as [|c a IH]; cbn; [reflexivity | now rewrite IH]. Qed.

Lemma string_of_list_ascii_app (l1 l2 : list ascii) :
  string_of_list_ascii (l1 ++ l2)
  = (string_of_list_ascii l1 ++ string_of_list_ascii l2)%string.
Proof. induction l1 as [|c l1 IH]; cbn; [reflexivity | now rewrite IH]. Qed.

(** [remove_run_number], read from the end of the run id. *)
Lemma remove_run_number_rev (x : string) :
  remove_run_number x
  = match rev (list_ascii_of_string x) with
    | [] => None
    | [d] => if isdigit d then None else Some x
    | d :: c :: rest =>
        if isdigit d && Ascii.eqb c "-"
        then Some (string_of_list_ascii (rev rest))
        else Some x
    end.
Proof.
  unfold remove_run_number, char_from_end, drop_last_two.
  destruct (rev (list_ascii_of_string x)) as [|d [|c rest]]; cbn; [reflexivity| |].
  - destruct (isdigit d); reflexivity.
  - destruct (isdigit d); [|reflexivity]. destruct (Ascii.eqb c "-"); reflexivity.
Qed.

Lemma string_of_rev (x : string) :
  x = string_of_list_ascii (rev (rev (list_ascii_of_string x))).
Proof. now rewrite rev_involutive, string_of_list_ascii_of_string. Qed.

Lemma rev_two_more (base : string) (c d : ascii) :
  rev (list_ascii_of_string (base ++ String c (String d ""))%string)
  = d :: c :: rev (list_ascii_of_string base).
Proof. rewrite list_ascii_of_string_app, rev_app_distr. reflexivity. Qed.

(** X12.  A run id that ends in a hyphen and one digit loses the two: all the
    runs of one configuration get the id of the configuration. *)
Theorem run_number_removed (base : string) (d : ascii) :
  isdigit d = true ->
  remove_run_number (base ++ String "-" (String d ""))%string = Some base.
Proof.
  intros Hd. rewrite remove_run_number_rev, rev_two_more, Hd, Ascii.eqb_refl.
  cbn [andb]. rewrite rev_involutive, string_of_list_ascii_of_string. reflexivity.
Qed.

Lemma run_number_removed_witness :
  remove_run_number "upper-lr0.01-3" = Some "upper-lr0.01"%string.
Proof.
  exact (run_number_removed "upper-lr0.01" "3" ltac:(vm_compute; reflexivity)).
Defined.


(** X14.  When [remove_run_number] returns, it returns the run id unchanged
    or the run id without its last two characters, which then are a hyphen
    and a digit.  A run id whose last character but one is no hyphen is
    returned unchanged, so a run number of two digits is not removed. *)
Theorem remove_run_number_result (x y : string) :
  remove_run_number x = Some y ->
  (y = x \/ exists d, isdigit d = true /\ x = (y ++ String "-" (String d ""))%string)
  /\ (forall base c d,
         c <> "-"%char ->
         remove_run_number (base ++ String c (String d ""))%string
         = Some (base ++ String c (String d ""))%string).
Proof.
  intros E. split.
  - rewrite remove_run_number_rev in E. pose proof (string_of_rev x) as Hx.
    destruct (rev (list_ascii_of_string x)) as [|d [|c rest]]; cbn in Hx;
      [discriminate | |].
    + destruct (isdigit d); inversion E. left. reflexivity.
    + destruct (isdigit d) eqn:Hd; cbn [andb] in E; [|inversion E; left; reflexivity].
      destruct (Ascii.eqb_spec c "-") as [-> | Hc]; inversion E; [|left; reflexivity].
      right. exists d. split; [exact Hd|].
      rewrite Hx at 1. rewrite <- app_assoc, string_of_list_ascii_app. reflexivity.
  - intros base c d Hc. rewrite remove_run_number_rev, rev_two_more.
    apply Ascii.eqb_neq in Hc. rewrite Hc, andb_false_r. reflexivity.
Qed.

Lemma remove_run_number_result_witness :
  remove_run_number "upper-3" = Some "upper"%string
  /\ (exists d, isdigit d = true /\ "upper-3"%string = ("upper" ++ String "-" (String d ""))%string)
  /\ remove_run_number "upper-12" = Some "upper-12"%string.
Proof.
  assert (E : remove_run_number "upper-3" = Some "upper"%string)
    by (vm_compute; reflexivity).
  destruct (remove_run_number_result "upper-3" "upper" E) as [[H | H] Hkeep].
  - discriminate H.
  - split; [exact E|]. split; [exact H|].
    apply (Hkeep "upper-"%string "1"%char "2"%char). discriminate.
Defined.


(** ** Errors of an epoch (src/sympa/runner.py) *)

Section EpochErrors.

Context {T : Collaborators} (self : Runner T).

(** An exception in the body of the loop ends the loop, and the run. *)
Lemma loop_fails k l0 (s0 : machine T) l s err s' :
  loop_after self k l0 s0 = (Running l, s) ->
  epoch_body self (Z.of_nat (S k)) l s = (Raise err, s') ->
  forall n, loop_after self (S k + n) l0 s0 = (Failed err, s').
Proof.
  intros E Eb n. apply loop_after_left; [|intros l1; discriminate].
  rewrite loop_after_S, E, Eb. reflexivity.
Qed.

Lemma run_fails k (s0 : machine T) l s err s' :
  loop_after self k initial_locals s0 = (Running l, s) ->
  epoch_body self (Z.of_nat (S k)) l s = (Raise err, s') ->
  Z.of_nat k < epochs (args self) ->
  run self s0 = (Raise err, s').
Proof.
  intros E Eb Hk. rewrite run_loop_after.
  replace (Z.to_nat (epochs (args self)))
    with (S k + (Z.to_nat (epochs (args self)) - S k))%nat by lia.
  rewrite (loop_fails k _ _ _ _ _ _ E Eb). reflexivity.
Qed.

Lemma train_epoch_empty epoch_num (s : machine T) :
  fst (fst (check_all_points T (model_state s))) = true ->
  train_epoch self [] epoch_num s
  = (Raise ZeroDivisionError, with_grads (zero_gradients T) (traced prologue_events s)).
Proof.
  intros Hok.
  unfold train_epoch, check_points_in_manifold, bind, get, emit, set_grads.
  cbn [trace model_state model_grads optimizer_state scheduler_state].
  destruct (check_all_points T (model_state s)) as [[ok point] reason].
  cbn [fst] in Hok. subst ok. cbn [negb]. unfold ret at 1.
  cbn [train_batches]. unfold ret, lift, py_div.
  change (len (@nil Tensor)) with 0. cbn [Z.eqb].
  unfold with_grads, traced, prologue_events.
  cbn [trace model_state model_grads optimizer_state scheduler_state].
  rewrite <- !app_assoc. reflexivity.
Qed.

Lemma train_epoch_zero_accum b rest epoch_num (s : machine T) :
  grad_accum_steps (args self) = 0 ->
  fst (fst (check_all_points T (model_state s))) = true ->
  train_epoch self (b :: rest) epoch_num s
  = (Raise ZeroDivisionError,
     with_grads (backward T (model_state s) b 0 (zero_gradients T))
       (traced (prologue_events
                ++ [Forward b;
                    CalculateLoss (calculate_loss T (last_column b)
                                     (forward T (model_state s) b));
                    Backward]) s)).
Proof.
  intros H0 Hok.
  unfold train_epoch, check_points_in_manifold, bind, get, emit, set_grads.
  cbn [trace model_state model_grads optimizer_state scheduler_state].
  destruct (check_all_points T (model_state s)) as [[ok point] reason].
  cbn [fst] in Hok. subst ok. cbn [negb]. unfold ret at 1.
  cbn [train_batches]. unfold bind, train_batch, bind, get, emit, set_grads, lift, py_mod.
  rewrite H0. cbn [Z.eqb trace model_state model_grads optimizer_state scheduler_state].
  unfold with_grads, traced, prologue_events.
  cbn [trace model_state model_grads optimizer_state scheduler_state].
  rewrite <- !app_assoc. reflexivity.
Qed.

Lemma epoch_body_train_raises epoch l (s : machine T) err s1 :
  train_epoch self (train self epoch) epoch s = (Raise err, s1) ->
  epoch_body self epoch l s = (Raise err, s1).
Proof. intros E. unfold epoch_body, bind at 1. rewrite E. reflexivity. Qed.

End EpochErrors.

(** X1.  When the training split of an epoch has no batch and the points of
    the model are in the manifold, the epoch makes its opening calls and then
    raises [ZeroDivisionError], at the division by the number of batches: no
    scalar is written, the model, the optimizer and the scheduler stay as they
    were, the loop is left, and the run ends with that error. *)
Theorem empty_split_raises (T : Collaborators) (self : Runner T) (k : nat)
    (s0 s : machine T) (l : locals T) :
  loop_after self k initial_locals s0 = (Running l, s) ->
  train self (Z.of_nat (S k)) = [] ->
  fst (fst (check_all_points T (model_state s))) = true ->
  train_epoch self (train self (Z.of_nat (S k))) (Z.of_nat (S k)) s
  = (Raise ZeroDivisionError, with_grads (zero_gradients T) (traced prologue_events s))
  /\ (forall n,
        loop_after self (S k + n) initial_locals s0
        = (Failed ZeroDivisionError,
           with_grads (zero_gradients T) (traced prologue_events s)))
  /\ (Z.of_nat k < epochs (args self) ->
      run self s0
      = (Raise ZeroDivisionError, with_grads (zero_gradients T) (traced prologue_events s))).
Proof.
  intros E Hempty Hok.
  pose proof (train_epoch_empty self (Z.of_nat (S k)) s Hok) as Ht.
  rewrite <- Hempty in Ht at 1.
  pose proof (epoch_body_train_raises self _ l _ _ _ Ht) as Eb.
  split; [exact Ht|]. split.
  - apply (loop_fails self k _ _ _ _ _ _ E Eb).
  - apply (run_fails self k _ _ _ _ _ E Eb).
Qed.

Lemma empty_split_raises_witness :
  run (Build_Runner (toy flat_profile 100) ["a"; "b"; "c"] (fun _ => []) []
         (toy_args 10 1 4 2 1 "upper"))
    (boot (T:=toy flat_profile 100) 0 0 0 [])
  = (Raise ZeroDivisionError,
     with_grads (T:=toy flat_profile 100) 0
       (traced prologue_events (boot (T:=toy flat_profile 100) 0 0 0 []))).
Proof.
  apply (empty_split_raises (toy flat_profile 100)
           (Build_Runner (toy flat_profile 100) ["a"; "b"; "c"] (fun _ => []) []
              (toy_args 10 1 4 2 1 "upper"))
           0 (boot (T:=toy flat_profile 100) 0 0 0 [])
           (boot (T:=toy flat_profile 100) 0 0 0 []) initial_locals);
    [reflexivity | reflexivity | reflexivity | vm_compute; reflexivity].
Defined.

(** X2.  With [grad_accum_steps] zero, an epoch whose check passes raises
    [ZeroDivisionError] in its first batch, at the test that closes a window:
    the forward pass, the loss and the backward pass of that batch have been
    made by then, no optimizer step is taken and no further batch is read;
    the model, the optimizer and the scheduler stay as they were. *)
Theorem zero_accumulation_raises (T : Collaborators) (self : Runner T)
    (b : Tensor) (rest : list Tensor) (epoch_num : Z) (s : machine T) :
  grad_accum_steps (args self) = 0 ->
  fst (fst (check_all_points T (model_state s))) = true ->
  exists s',
    train_epoch self (b :: rest) epoch_num s = (Raise ZeroDivisionError, s')
    /\ trace s'
       = trace s ++ prologue_events
         ++ [Forward b;
             CalculateLoss (calculate_loss T (last_column b) (forward T (model_state s) b));
             Backward]
    /\ optimizer_steps (trace s') = optimizer_steps (trace s)
    /\ same_parameters s s'.
Proof.
  intros H0 Hok. eexists. split; [apply train_epoch_zero_accum; assumption|].
  cbn [with_grads traced trace model_state optimizer_state scheduler_state].
  split; [reflexivity|]. split; [|repeat split].
  rewrite optimizer_steps_app. cbn. lia.
Qed.

Lemma zero_accumulation_raises_witness :
  exists s',
    train_epoch (toy_runner flat_profile 100 (toy_args 10 0 4 2 1 "upper"))
      three_batches 1 (boot (T:=toy flat_profile 100) 0 0 0 [])
    = (Raise ZeroDivisionError, s')
    /\ trace s'
       = [CheckAllPoints; ModelTrain; ModelZeroGrad; OptimizerZeroGrad;
          Forward (toy_batch 0); CalculateLoss (Qsum [1; 1; 1; 1; 1]%Q); Backward].
Proof.
  destruct (zero_accumulation_raises (toy flat_profile 100)
              (toy_runner flat_profile 100 (toy_args 10 0 4 2 1 "upper"))
              (toy_batch 0) [toy_batch 5; toy_batch 10] 1
              (boot (T:=toy flat_profile 100) 0 0 0 []))
    as [s' [E [Htr _]]]; [reflexivity | reflexivity |].
  exists s'. split; [exact E | exact Htr].
Defined.

(** X3.  With [save_epochs] zero, an epoch whose training returns raises
    [ZeroDivisionError] after the scalars of the epoch were written, before
    any checkpoint or validation.  With [val_every] zero and [save_epochs]
    not, it raises after the checkpoint of the epoch, if one was due, and
    before any validation. *)
Theorem zero_cadence_raises (T : Collaborators) (self : Runner T) (epoch : Z)
    (l : locals T) (s s1 : machine T) (v : Q) :
  train_epoch self (train self epoch) epoch s = (Ok v, s1) ->
  (save_epochs (args self) = 0 ->
   epoch_body self epoch l s
   = (Raise ZeroDivisionError, traced (scalar_events epoch v s1) s1))
  /\ (save_epochs (args self) <> 0 ->
      val_every (args self) = 0 ->
      epoch_body self epoch l s
      = (Raise ZeroDivisionError, traced (after_training_events self epoch v s1) s1)).
Proof.
  intros Et. split.
  - intros HS. unfold epoch_body, bind at 1. rewrite Et.
    unfold bind, emit, get, lift, py_mod.
    cbn [trace model_state model_grads optimizer_state scheduler_state].
    unfold scalar_events, traced.
    destruct (projected_points T (model_state s1)) as [p|]; unfold emit, ret;
      cbn [trace model_state model_grads optimizer_state scheduler_state];
      rewrite HS; cbn [Z.eqb]; rewrite <- ?app_assoc, ?app_nil_r; reflexivity.
  - intros HS HV. unfold epoch_body, bind at 1. rewrite Et.
    unfold bind, emit, get, lift, py_mod.
    cbn [trace model_state model_grads optimizer_state scheduler_state].
    unfold after_training_events, traced.
    apply Z.eqb_neq in HS.
    destruct (projected_points T (model_state s1)) as [p|]; unfold emit, ret;
      cbn [trace model_state model_grads optimizer_state scheduler_state];
      rewrite HS, HV; cbn [Z.eqb];
      (destruct (epoch mod save_epochs (args self) =? 0); unfold when;
       [rewrite save_model_spec | unfold ret];
       unfold traced, save_events;
       cbn [trace model_state model_grads optimizer_state scheduler_state];
       rewrite <- ?app_assoc, ?app_nil_r; reflexivity).
Qed.

Lemma zero_cadence_raises_witness :
  exists s2,
    epoch_body (toy_runner flat_profile 100 (toy_args 10 1 0 2 1 "upper")) 1
      initial_locals (boot (T:=toy flat_profile 100) 0 0 0 [])
    = (Raise ZeroDivisionError, s2)
    /\ store_writes (trace s2) = [].
Proof.
  pose (self := toy_runner flat_profile 100 (toy_args 10 1 0 2 1 "upper")).
  pose (out := train_epoch self (train self 1) 1 (boot (T:=toy flat_profile 100) 0 0 0 [])).
  assert (E : train_epoch self (train self 1) 1 (boot (T:=toy flat_profile 100) 0 0 0 [])
              = (Ok (10 # 2)%Q, snd out)) by (vm_compute; reflexivity).
  destruct (zero_cadence_raises (toy flat_profile 100) self 1 initial_locals _ _ _ E)
    as [H _].
  eexists. split; [apply H; reflexivity|]. vm_compute. reflexivity.
Defined.

(** ** Evaluation passes (src/sympa/runner.py) *)

Section EvaluationPasses.

Context {T : Collaborators}.

Lemma forward_passes_app (tr1 tr2 : list (event T)) :
  forward_passes (tr1 ++ tr2) = (forward_passes tr1 + forward_passes tr2)%nat.
Proof. unfold forward_passes. now rewrite filter_app, length_app. Qed.

Lemma forward_passes_map_Forward {A : Type} (f : A -> Tensor) (l : list A) :
  forward_passes (T:=T) (map (fun a => Forward (f a)) l) = List.length l.
Proof.
  unfold forward_passes. induction l as [|a l IH]; cbn; [reflexivity | now rewrite IH].
Qed.

Lemma mean_raises (l : list Q) (e : exn) :
  mean l = Raise e -> l = [] /\ e = StatisticsError.
Proof. destruct l; cbn; intros H; inversion H; auto. Qed.

End EvaluationPasses.

(** X4.  An evaluation pass raises [StatisticsError] exactly when the split
    yields no distortion value, as an empty split does, and raises nothing
    else; the error comes from the mean at the end, after the model was put in
    evaluation mode and every batch of the split was passed forward once. *)
Theorem evaluate_no_data (T : Collaborators) (split : list Tensor) (s : machine T) :
  (fst (evaluate split s) = Raise StatisticsError
   <-> split_distortions (model_state s) split = [])
  /\ (forall e, fst (evaluate split s) = Raise e -> e = StatisticsError)
  /\ (forall r s', evaluate split s = (r, s') ->
        exists evs, trace s' = trace s ++ ModelEval :: evs
                    /\ forward_passes evs = List.length split
                    /\ forward_passes (trace s')
                       = (forward_passes (trace s) + List.length split)%nat)
  /\ evaluate [] s = (Raise StatisticsError, traced [ModelEval] s).
Proof.
  rewrite evaluate_spec. cbn [fst]. split; [|split; [|split]].
  - split.
    + intros H. apply mean_raises in H. tauto.
    + intros ->. reflexivity.
  - intros e H. apply mean_raises in H. tauto.
  - intros r s' E. inversion E; subst. exists (map Forward split).
    unfold traced, evaluate_events. cbn [trace].
    assert (Hf : forward_passes (T:=T) (map Forward split) = List.length split)
      by exact (forward_passes_map_Forward (fun b => b) split).
    split; [reflexivity|]. split; [exact Hf|].
    change (ModelEval :: map Forward split)
      with ([ModelEval (T:=T)] ++ map Forward split).
    rewrite !forward_passes_app, Hf. reflexivity.
  - reflexivity.
Qed.

(** X5.  For a model that returns one distance for every pair of a batch,
    [build_distance_matrix] over [n] nodes returns a matrix of [n] rows of
    [n] distances: row [i] holds the distances the model gives to the pairs
    of node [i] with the nodes [0 .. n - 1], in this order.  It puts the model
    in evaluation mode and makes [n] forward passes, one for every node, and
    changes nothing but the trace. *)
Theorem distance_matrix_shape (T : Collaborators) (self : Runner T) (s : machine T) :
  (forall m batch, List.length (forward T m batch) = List.length batch) ->
  exists matrix,
    build_distance_matrix self s
    = (Ok matrix, traced (mAP_events (arange (len_id2node T (id2node self)))) s)
    /\ List.length matrix = len_id2node T (id2node self)
    /\ (forall row, In row matrix -> List.length row = len_id2node T (id2node self))
    /\ (forall i, (i < len_id2node T (id2node self))%nat ->
          nth_error matrix i
          = Some (forward T (model_state s)
                    (map (fun j => [inject_Z (Z.of_nat i); inject_Z (Z.of_nat j)])
                       (seq 0 (len_id2node T (id2node self))))))
    /\ forward_passes (mAP_events (T:=T) (arange (len_id2node T (id2node self))))
       = len_id2node T (id2node self).
Proof.
  intros Hfw. set (n := len_id2node T (id2node self)).
  unfold build_distance_matrix, bind, emit. fold n.
  rewrite distance_rows_spec.
  cbn [app trace model_state model_grads optimizer_state scheduler_state].
  eexists. split.
  { unfold traced, mAP_events.
    cbn [trace model_state model_grads optimizer_state scheduler_state].
    rewrite <- app_assoc. reflexivity. }
  assert (Hlen : List.length (arange n) = n)
    by (unfold arange; now rewrite length_map, length_seq).
  split; [now rewrite length_map|]. split; [|split].
  - intros row Hin. apply in_map_iff in Hin as [i [<- _]].
    rewrite Hfw. unfold node_pairs. now rewrite length_map.
  - intros i Hi. unfold arange at 2. rewrite map_map, nth_error_map.
    rewrite (nth_error_nth' _ 0%nat) by (rewrite length_seq; exact Hi).
    rewrite seq_nth by exact Hi. cbn [option_map Nat.add].
    unfold node_pairs, arange. rewrite map_map. reflexivity.
  - unfold mAP_events.
    change (ModelEval :: ?l) with ([ModelEval (T:=T)] ++ l).
    rewrite forward_passes_app, forward_passes_map_Forward. exact Hlen.
Qed.

Lemma distance_matrix_shape_witness :
  fst (build_distance_matrix (toy_runner dip_profile 100 (toy_args 10 1 4 2 1 "upper"))
         (boot (T:=toy dip_profile 100) 0 0 0 []))
  = Ok [[3%Q; 3%Q; 3%Q]; [3%Q; 3%Q; 3%Q]; [3%Q; 3%Q; 3%Q]].
Proof.
  destruct (distance_matrix_shape (toy dip_profile 100)
              (toy_runner dip_profile 100 (toy_args 10 1 4 2 1 "upper"))
              (boot (T:=toy dip_profile 100) 0 0 0 []))
    as [matrix [E _]].
  - intros m batch. cbn. apply length_map.
  - vm_compute. reflexivity.
Defined.

(** ** The series of a run (src/sympa/runner.py) *)

Section LoopSeries.

Context {T : Collaborators} (self : Runner T).

Lemma scheduler_metrics_app (tr1 tr2 : list (event T)) :
  scheduler_metrics (tr1 ++ tr2) = scheduler_metrics tr1 ++ scheduler_metrics tr2.
Proof. apply flat_map_app. Qed.

(** The trace of an epoch of training that returns. *)
Lemma train_epoch_Ok_trace batches epoch_num (s : machine T) v s1 :
  train_epoch self batches epoch_num s = (Ok v, s1) ->
  exists losses avg,
    List.length losses = List.length batches
    /\ trace s1
       = trace s ++ training_events (grad_accum_steps (args self))
                      (max_grad_norm (args self)) batches losses avg epoch_num.
Proof.
  intros E. destruct (train_epoch_Ok_inv self _ _ _ _ _ E) as [Hacc [Hok Hne]].
  destruct (train_epoch_spec self batches epoch_num s Hacc Hok)
    as [losses [r [s' [tail [E' [L [Tr [_ Hn]]]]]]]].
  rewrite E in E'. inversion E'; subst r s'.
  destruct (Hn Hne) as [v' [avg [_ [-> _]]]].
  exists losses, avg. split; [exact L | exact Tr].
Qed.

Lemma training_events_series accum max_norm batches losses avg epoch :
  List.length losses = List.length batches ->
  scheduler_metrics (training_events (T:=T) accum max_norm batches losses avg epoch) = []
  /\ train_loss_series (training_events (T:=T) accum max_norm batches losses avg epoch) = []
  /\ val_history (training_events (T:=T) accum max_norm batches losses avg epoch) = [].
Proof.
  intros Hlen. unfold training_events.
  destruct (training_shows (T:=T) accum max_norm batches losses avg epoch Hlen)
    as [Hv [_ Ht]].
  split; [|split; assumption].
  rewrite !scheduler_metrics_app.
  pose proof (training_calls_batches_events (T:=T) accum max_norm batches losses 0) as F.
  unfold scheduler_metrics at 2.
  rewrite (flat_map_vanishes training_call)
    by (auto; intros [] H; try discriminate H; reflexivity).
  reflexivity.
Qed.

Lemma after_training_no_scheduler epoch v (s1 : machine T) :
  scheduler_metrics (after_training_events self epoch v s1) = [].
Proof.
  unfold after_training_events, save_events.
  destruct (projected_points T (model_state s1));
    destruct (epoch mod save_epochs (args self) =? 0); reflexivity.
Qed.

Lemma validation_scheduler epoch v d m (l : locals T) :
  scheduler_metrics (validation_events self epoch v d m l) = [d].
Proof.
  unfold validation_events. rewrite scheduler_metrics_app.
  pose proof (eval_events_evaluate (T:=T) (validate self)) as F.
  unfold scheduler_metrics at 1.
  rewrite (flat_map_vanishes eval_event)
    by (auto; intros [] H; try discriminate H; reflexivity).
  destruct (lt_float d (best_distortion l)); destruct (early_stop _ _ _); reflexivity.
Qed.

(** What an epoch that completes adds to the series. *)
Lemma epoch_body_series epoch l (s : machine T) x s2 :
  epoch_body self epoch l s = (Ok x, s2) ->
  (exists v, train_loss_series (trace s2) = train_loss_series (trace s) ++ [(epoch, v)])
  /\ if epoch mod val_every (args self) =? 0
     then exists d,
         val_history (trace s2) = val_history (trace s) ++ [(epoch, d)]
         /\ scheduler_metrics (trace s2) = scheduler_metrics (trace s) ++ [d]
     else val_history (trace s2) = val_history (trace s)
          /\ scheduler_metrics (trace s2) = scheduler_metrics (trace s).
Proof.
  intros E. apply epoch_body_spec in E.
  destruct E as [v [s1 [Etr [_ [_ [_ Eb]]]]]].
  destruct (train_epoch_Ok_trace _ _ _ _ _ Etr) as [losses [avg [L Tr1]]].
  destruct (training_events_series (grad_accum_steps (args self))
              (max_grad_norm (args self)) (train self epoch) losses avg epoch L)
    as [TS [TT TV]].
  destruct (after_training_shows self epoch v s1) as [AV [_ [AT _]]].
  pose proof (after_training_no_scheduler epoch v s1) as AS.
  destruct (epoch mod val_every (args self) =? 0).
  - destruct Eb as [d [_ [_ Etr2]]].
    destruct (validation_shows self epoch v d (model_state s1) l) as [VV [_ [VT _]]].
    pose proof (validation_scheduler epoch v d (model_state s1) l) as VS.
    split; [exists v | exists d; split]; rewrite Etr2, Tr1.
    + rewrite !train_loss_series_app, TT, AT, VT, !app_nil_r. reflexivity.
    + rewrite !val_history_app, TV, AV, VV, app_nil_r. reflexivity.
    + rewrite !scheduler_metrics_app, TS, AS, VS, app_nil_r. reflexivity.
  - destruct Eb as [_ Etr2].
    split; [exists v | split]; rewrite Etr2, Tr1.
    + rewrite !train_loss_series_app, TT, AT, app_nil_r. reflexivity.
    + rewrite !val_history_app, TV, AV, !app_nil_r. reflexivity.
    + rewrite !scheduler_metrics_app, TS, AS, !app_nil_r. reflexivity.
Qed.

(** The series of a loop that has not failed. *)
Lemma loop_after_series l0 (s0 : machine T) k : forall c s l,
  loop_after self k l0 s0 = (c, s) ->
  locals_of c = Some l ->
  map fst (train_loss_series (trace s))
  = map fst (train_loss_series (trace s0)) ++ epochs_upto (last_epoch k c)
  /\ map fst (val_history (trace s))
     = map fst (val_history (trace s0))
       ++ filter (fun e => e mod val_every (args self) =? 0) (epochs_upto (last_epoch k c))
  /\ exists h,
      val_history (trace s) = val_history (trace s0) ++ h
      /\ scheduler_metrics (trace s) = scheduler_metrics (trace s0) ++ map snd h.
Proof.
  induction k as [|k IH]; intros c s l E Hl.
  - cbn [loop_after] in E. inversion E; subst. cbn [last_epoch].
    change (epochs_upto (Z.of_nat 0)) with (@nil Z). cbn [filter].
    rewrite !app_nil_r. split; [reflexivity|]. split; [reflexivity|].
    exists []. rewrite !app_nil_r. split; reflexivity.
  - destruct (loop_after_S_inv self k _ _ _ _ _ E Hl)
      as [[e [-> Ek]] | [l1 [s1 [brk [Ek [Eb Hc]]]]]].
    + apply (IH _ _ _ Ek Hl).
    + destruct (IH _ _ l1 Ek eq_refl) as [IHt [IHv [h [IHh IHs]]]].
      cbn [last_epoch] in IHt, IHv.
      assert (Hlast : last_epoch (S k) c = Z.of_nat (S k))
        by (subst c; destruct brk; reflexivity).
      rewrite Hlast, epochs_upto_S, filter_app. cbn [filter].
      apply epoch_body_series in Eb. destruct Eb as [[v Et] Eb].
      split.
      { rewrite Et, map_app, IHt, <- app_assoc. reflexivity. }
      destruct (Z.of_nat (S k) mod val_every (args self) =? 0).
      * destruct Eb as [d [Ev Es]]. split.
        -- rewrite Ev, map_app, IHv, <- app_assoc. reflexivity.
        -- exists (h ++ [(Z.of_nat (S k), d)]). split.
           ++ rewrite Ev, IHh, <- app_assoc. reflexivity.
           ++ rewrite Es, IHs, map_app, <- app_assoc. reflexivity.
      * destruct Eb as [Ev Es]. split.
        -- rewrite Ev, IHv, app_nil_r. reflexivity.
        -- exists h. split; [rewrite Ev; exact IHh | rewrite Es; exact IHs].
Qed.

End LoopSeries.

(** X6.  At every point of a run whose loop has not failed, the epochs of
    the [val/distortion] series are, in order, the epochs entered so far
    that are divisible by [val_every]: validation runs in these epochs and in
    no other. *)
Theorem validated_epochs (T : Collaborators) (self : Runner T)
    (m0 : StateDict T) (g0 : Gradients T) (o0 : Optimizer T) (c0 : Scheduler T)
    (k : nat) (c : control T) (s : machine T) (l : locals T) :
  loop_after self k initial_locals (boot m0 g0 o0 c0) = (c, s) ->
  locals_of c = Some l ->
  map fst (val_history (trace s))
  = filter (fun e => e mod val_every (args self) =? 0) (epochs_upto (last_epoch k c)).
Proof.
  intros E Hl.
  destruct (loop_after_series self _ _ k c s l E Hl) as [_ [H _]]. exact H.
Qed.

Lemma validated_epochs_witness :
  map fst (val_history
             (trace (snd (loop_after (toy_runner flat_profile 100
                                        (toy_args 10 1 4 2 1 "upper")) 5
                            initial_locals (boot (T:=toy flat_profile 100) 0 0 0 [])))))
  = [2; 4].
Proof.
  pose (self := toy_runner flat_profile 100 (toy_args 10 1 4 2 1 "upper")).
  pose (out := loop_after self 5 initial_locals (boot (T:=toy flat_profile 100) 0 0 0 [])).
  assert (Hc : exists l, fst out = Running l) by (eexists; vm_compute; reflexivity).
  destruct Hc as [l Hc].
  assert (E : loop_after self 5 initial_locals (boot (T:=toy flat_profile 100) 0 0 0 [])
              = (Running l, snd out)).
  { rewrite <- Hc. apply surjective_pairing. }
  fold self. fold out.
  rewrite (validated_epochs (toy flat_profile 100) self 0 0 0 [] 5 _ _ l E eq_refl).
  vm_compute. reflexivity.
Defined.

(** X7.  At every point of a run whose loop has not failed, the scheduler
    was stepped once for every validation, in order, each time with the
    distortion of that validation, and at no other time. *)
Theorem scheduler_stepped_per_validation (T : Collaborators) (self : Runner T)
    (m0 : StateDict T) (g0 : Gradients T) (o0 : Optimizer T) (c0 : Scheduler T)
    (k : nat) (c : control T) (s : machine T) (l : locals T) :
  loop_after self k initial_locals (boot m0 g0 o0 c0) = (c, s) ->
  locals_of c = Some l ->
  scheduler_metrics (trace s) = map snd (val_history (trace s)).
Proof.
  intros E Hl.
  destruct (loop_after_series self _ _ k c s l E Hl) as [_ [_ [h [Hh Hs]]]].
  rewrite Hh, Hs. reflexivity.
Qed.

Lemma scheduler_stepped_per_validation_witness :
  scheduler_metrics
    (trace (snd (loop_after (toy_runner dip_profile 100 (toy_args 10 1 4 2 1 "upper")) 5
                   initial_locals (boot (T:=toy dip_profile 100) 0 0 0 []))))
  = [(20 # 10)%Q; (50 # 10)%Q].
Proof.
  pose (self := toy_runner dip_profile 100 (toy_args 10 1 4 2 1 "upper")).
  pose (out := loop_after self 5 initial_locals (boot (T:=toy dip_profile 100) 0 0 0 [])).
  assert (Hc : exists l, fst out = Running l) by (eexists; vm_compute; reflexivity).
  destruct Hc as [l Hc].
  assert (E : loop_after self 5 initial_locals (boot (T:=toy dip_profile 100) 0 0 0 [])
              = (Running l, snd out)).
  { rewrite <- Hc. apply surjective_pairing. }
  fold self. fold out.
  rewrite (scheduler_stepped_per_validation (toy dip_profile 100) self 0 0 0 [] 5 _ _ l
             E eq_refl).
  vm_compute. reflexivity.
Defined.

(** X8.  At every point of a run whose loop has not failed, the
    [train/loss] series has one point for every epoch entered so far, in the
    order of the epochs. *)
Theorem train_loss_every_epoch (T : Collaborators) (self : Runner T)
    (m0 : StateDict T) (g0 : Gradients T) (o0 : Optimizer T) (c0 : Scheduler T)
    (k : nat) (c : control T) (s : machine T) (l : locals T) :
  loop_after self k initial_locals (boot m0 g0 o0 c0) = (c, s) ->
  locals_of c = Some l ->
  map fst (train_loss_series (trace s)) = epochs_upto (last_epoch k c).
Proof.
  intros E Hl.
  destruct (loop_after_series self _ _ k c s l E Hl) as [H _]. exact H.
Qed.

Lemma train_loss_every_epoch_witness :
  map fst (train_loss_series
             (trace (snd (loop_after (toy_runner flat_profile 100
                                        (toy_args 10 1 4 2 1 "upper")) 10
                            initial_locals (boot (T:=toy flat_profile 100) 0 0 0 [])))))
  = [1; 2; 3; 4; 5; 6].
Proof.
  pose (self := toy_runner flat_profile 100 (toy_args 10 1 4 2 1 "upper")).
  pose (out := loop_after self 10 initial_locals (boot (T:=toy flat_profile 100) 0 0 0 [])).
  assert (Hc : exists l, fst out = Stopped 6 l) by (eexists; vm_compute; reflexivity).
  destruct Hc as [l Hc].
  assert (E : loop_after self 10 initial_locals (boot (T:=toy flat_profile 100) 0 0 0 [])
              = (Stopped 6 l, snd out)).
  { rewrite <- Hc. apply surjective_pairing. }
  fold self. fold out.
  rewrite (train_loss_every_epoch (toy flat_profile 100) self 0 0 0 [] 10 _ _ l E eq_refl).
  vm_compute. reflexivity.
Defined.

(** ** The end of a run (src/sympa/runner.py) *)

Section RunEnd.

Context {T : Collaborators} (self : Runner T).

(** The best distortion is the distortion of the snapshot on the validation
    split. *)
Lemma snapshot_distortion (s0 : machine T) k : forall c s l m,
  loop_after self k initial_locals s0 = (c, s) ->
  locals_of c = Some l ->
  best_model_state l = Some m ->
  exists d,
    best_distortion l = Finite d
    /\ mean (split_distortions m (validate self)) = Ok d.
Proof.
  induction k as [|k IH]; intros c s l m E Hl Hm.
  - cbn [loop_after] in E. inversion E; subst. cbn [locals_of] in Hl.
    inversion Hl; subst. discriminate.
  - destruct (loop_after_S_inv self k _ _ _ _ _ E Hl)
      as [[e [-> Ek]] | [l1 [s1 [brk [Ek [Eb Hc]]]]]].
    + apply (IH _ _ _ _ Ek Hl Hm).
    + apply epoch_body_shows in Eb. destruct Eb as [_ [_ [_ Eb]]].
      set (e := Z.of_nat (S k)) in *.
      destruct (e mod val_every (args self) =? 0).
      * destruct Eb as [d [Ed [Ex _]]]. injection Ex as El _.
        destruct (new_best_cases e d (model_state s) l1)
          as [[_ Hnew]|[_ Hnew]]; rewrite Hnew in El; subst l.
        -- cbn [best_model_state] in Hm. inversion Hm; subst m.
           exists d. split; [reflexivity | exact Ed].
        -- apply (IH _ _ _ _ Ek eq_refl Hm).
      * destruct Eb as [Ex _]. injection Ex as El _. subst l.
        apply (IH _ _ _ _ Ek eq_refl Hm).
Qed.

(** A loop that was left by [break] in epoch [e] was left after [e] passes. *)
Lemma loop_after_stopped_at l0 (s0 : machine T) k : forall e l s,
  loop_after self k l0 s0 = (Stopped e l, s) ->
  1 <= e <= Z.of_nat k
  /\ loop_after self (Z.to_nat e) l0 s0 = (Stopped e l, s).
Proof.
  induction k as [|k IH]; intros e l s E.
  - cbn [loop_after] in E. discriminate.
  - destruct (loop_after_S_inv self k _ _ _ _ _ E eq_refl)
      as [[e' [_ Ek]] | [l1 [s1 [brk [Ek [Eb Hc]]]]]].
    + destruct (IH _ _ _ Ek) as [He Hk]. split; [lia | exact Hk].
    + destruct brk; [|discriminate].
      assert (He : e = Z.of_nat (S k)) by congruence.
      split; [lia|]. rewrite He, Nat2Z.id, <- He. exact E.
Qed.

(** A loop that has not failed stands where it stood after the last epoch it
    entered. *)
Lemma loop_after_last_epoch l0 (s0 : machine T) k c s l :
  loop_after self k l0 s0 = (c, s) ->
  locals_of c = Some l ->
  0 <= last_epoch k c
  /\ loop_after self (Z.to_nat (last_epoch k c)) l0 s0 = (c, s).
Proof.
  intros E Hl. destruct c as [l1|e l1|err]; cbn [last_epoch].
  - rewrite Nat2Z.id. split; [lia | exact E].
  - destruct (loop_after_stopped_at _ _ _ _ _ _ E) as [He Hk]. split; [lia | exact Hk].
  - discriminate.
Qed.

Lemma in_epochs_upto (e n : Z) : 1 <= e <= n -> In e (epochs_upto n).
Proof.
  intros He. unfold epochs_upto. apply in_map_iff. exists (Z.to_nat e).
  split; [lia|]. apply in_seq. lia.
Qed.

Lemma final_events_no_val l m d row :
  val_history (final_events self l m d row) = [].
Proof.
  unfold final_events. rewrite !val_history_app.
  pose proof (eval_events_evaluate (T:=T) (validate self)) as F1.
  pose proof (eval_events_mAP (T:=T) (arange (len_id2node T (id2node self)))) as F2.
  unfold val_history at 2 3.
  rewrite !(flat_map_vanishes eval_event)
    by (auto; intros [] H; try discriminate H; reflexivity).
  reflexivity.
Qed.

(** The locals of a run that completes: a snapshot was taken, at a validated
    epoch among those entered. *)
Lemma run_Ok_best (s0 s' : machine T) :
  val_history (trace s0) = [] ->
  run self s0 = (Ok tt, s') ->
  exists c s l m d row,
    loop_after self (Z.to_nat (epochs (args self))) initial_locals s0 = (c, s)
    /\ locals_of c = Some l
    /\ best_model_state l = Some m
    /\ best_distortion l = Finite d
    /\ mean (split_distortions m (validate self)) = Ok d
    /\ model_state s' = m
    /\ trace s' = trace s ++ final_events self l m d row
    /\ rd_distortion row = (d * 100)%Q
    /\ In (best_epoch l, d) (val_history (trace s))
    /\ (forall e' d', In (e', d') (val_history (trace s)) -> (d <= d')%Q)
    /\ 1 <= best_epoch l <= last_epoch (Z.to_nat (epochs (args self))) c
    /\ m = model_state (snd (loop_after self (Z.to_nat (best_epoch l)) initial_locals s0)).
Proof.
  intros H0 E.
  destruct (run_Ok self s0 s' E) as [c [s [l [_ [_ [_ [El [Hl [Hfin _]]]]]]]]].
  destruct (finalize_Ok self l s s' Hfin)
    as [m [d [row [Hm [Hd [Hms [Htr [_ [_ [Hrow _]]]]]]]]]].
  destruct (snapshot_distortion s0 _ _ _ _ _ El Hl Hm) as [d1 [Hb Hd1]].
  assert (d1 = d) by congruence. subst d1.
  destruct (loop_after_last_epoch _ _ _ _ _ _ El Hl) as [_ Elast].
  destruct (best_invariant self s0 _ _ _ _ H0 Elast Hl) as [Hin [Hnil Hbest]].
  assert (Hne : val_history (trace s) <> []).
  { intros Hn. rewrite (Hnil Hn) in Hm. discriminate. }
  destruct (Hbest Hne) as [d2 [Hb2 [Hin2 [Hmin Hsnap]]]].
  assert (d2 = d) by congruence. subst d2.
  exists c, s, l, m, d, row.
  repeat (split; [assumption|]).
  split; [|split].
  - intros e' d' Hi. destruct (Hmin _ _ Hi) as [Hlo Hhi].
    destruct (Z.lt_ge_cases e' (best_epoch l)) as [Hc|Hc].
    + apply Qlt_le_weak, Hlo, Hc.
    + apply Hhi, Hc.
  - pose proof (Hin _ _ Hin2) as Hrange.
    destruct (loop_after_last_epoch _ _ _ _ _ _ El Hl) as [Hpos _]. lia.
  - congruence.
Qed.

End RunEnd.

(** X9.  A run that completes exports the best validation distortion: the
    final evaluation of the restored snapshot gives again the distortion the
    snapshot was taken at, which is the least of the [val/distortion] series,
    and the row written holds it times 100; the model is left in the state of
    the snapshot. *)
Theorem exported_distortion_is_best (T : Collaborators) (self : Runner T)
    (m0 : StateDict T) (g0 : Gradients T) (o0 : Optimizer T) (c0 : Scheduler T)
    (s' : machine T) :
  run self (boot m0 g0 o0 c0) = (Ok tt, s') ->
  exists l d row,
    locals_of (fst (loop_after self (Z.to_nat (epochs (args self))) initial_locals
                      (boot m0 g0 o0 c0))) = Some l
    /\ best_distortion l = Finite d
    /\ In (best_epoch l, d) (val_history (trace s'))
    /\ (forall e' d', In (e', d') (val_history (trace s')) -> (d <= d')%Q)
    /\ results_written (trace s') = [WriteResults (results_file (args self)) row]
    /\ rd_distortion row = (d * 100)%Q
    /\ best_model_state l = Some (model_state s').
Proof.
  intros E.
  destruct (run_Ok_best self (boot m0 g0 o0 c0) s' eq_refl E)
    as [c [s [l [m [d [row [El [Hl [Hm [Hb [_ [Hms [Htr [Hrow [Hin [Hmin _]]]]]]]]]]]]]]]].
  exists l, d, row.
  assert (Hv : val_history (trace s') = val_history (trace s)).
  { rewrite Htr, val_history_app, final_events_no_val, app_nil_r. reflexivity. }
  rewrite Hv, El. cbn [fst].
  split; [exact Hl|]. split; [exact Hb|]. split; [exact Hin|]. split; [exact Hmin|].
  split; [|split; [exact Hrow | congruence]].
  rewrite Htr. unfold results_written at 1. rewrite filter_app.
  fold (results_written (trace s)). fold (results_written (final_events self l m d row)).
  destruct (final_events_shows self l m d row) as [_ ->].
  assert (Hres : results_written (trace s) = results_written (trace (boot m0 g0 o0 c0))).
  { unfold results_written. apply (emits_only_filter not_result).
    - intros e He. unfold not_result in He. now apply negb_true_iff in He.
    - eapply loop_after_emits. exact El. }
  rewrite Hres. reflexivity.
Qed.

Lemma exported_distortion_is_best_witness :
  exists row,
    results_written
      (trace (snd (run (toy_runner dip_profile 100 (toy_args 10 1 4 2 1 "upper"))
                     (boot (T:=toy dip_profile 100) 0 0 0 []))))
    = [WriteResults (T:=toy dip_profile 100) "out.csv" row]
    /\ rd_distortion row = ((20 # 10) * 100)%Q.
Proof.
  pose (self := toy_runner dip_profile 100 (toy_args 10 1 4 2 1 "upper")).
  pose (out := run self (boot (T:=toy dip_profile 100) 0 0 0 [])).
  assert (E : run self (boot (T:=toy dip_profile 100) 0 0 0 []) = (Ok tt, snd out))
    by (vm_compute; reflexivity).
  destruct (exported_distortion_is_best (toy dip_profile 100) self 0 0 0 [] _ E)
    as [l [d [row [Hl [Hb [_ [_ [Hres [Hrow _]]]]]]]]].
  exists row. split; [exact Hres|]. rewrite Hrow.
  vm_compute in Hl. inversion Hl; subst l. cbn [best_distortion] in Hb.
  inversion Hb; subst d. reflexivity.
Defined.

(** X10.  A run that completes ends its writes to the stores with the
    checkpoint of the best epoch; the best epoch is one of the epochs
    entered; and when the best epoch is divisible by [save_epochs], the loop
    has already written this very checkpoint, the same state under the same
    name, so the final write repeats it. *)
Theorem final_checkpoint_repeats (T : Collaborators) (self : Runner T)
    (m0 : StateDict T) (g0 : Gradients T) (o0 : Optimizer T) (c0 : Scheduler T)
    (s' : machine T) :
  run self (boot m0 g0 o0 c0) = (Ok tt, s') ->
  exists c s l m pre,
    loop_after self (Z.to_nat (epochs (args self))) initial_locals (boot m0 g0 o0 c0)
    = (c, s)
    /\ locals_of c = Some l
    /\ best_model_state l = Some m
    /\ 1 <= best_epoch l <= last_epoch (Z.to_nat (epochs (args self))) c
    /\ store_writes (trace s')
       = pre ++ [TorchSave (checkpoint_name self (best_epoch l)) m (id2node self)]
    /\ (best_epoch l mod save_epochs (args self) = 0 ->
        In (TorchSave (checkpoint_name self (best_epoch l)) m (id2node self)) pre).
Proof.
  intros E.
  destruct (run_Ok_best self (boot m0 g0 o0 c0) s' eq_refl E)
    as [c [s [l [m [d [row [El [Hl [Hm [_ [_ [_ [Htr [_ [_ [_ [Hrange Hsnap]]]]]]]]]]]]]]]]].
  exists c, s, l, m, (store_writes (trace s) ++ [WriteResults (results_file (args self)) row]).
  split; [exact El|]. split; [exact Hl|]. split; [exact Hm|]. split; [exact Hrange|].
  split.
  - rewrite Htr, store_writes_app.
    destruct (final_events_shows self l m d row) as [-> _].
    rewrite <- app_assoc. reflexivity.
  - intros Hdiv. apply in_or_app. left.
    rewrite (loop_after_store_writes self _ _ _ _ _ El Hl).
    apply in_or_app. right. apply in_flat_map. exists (best_epoch l).
    split; [apply in_epochs_upto; exact Hrange|].
    unfold periodic_checkpoint. apply Z.eqb_eq in Hdiv. rewrite Hdiv, <- Hsnap.
    left. reflexivity.
Qed.

Lemma final_checkpoint_repeats_witness :
  exists pre,
    store_writes
      (trace (snd (run (toy_runner dip_profile 100 (toy_args 10 1 2 2 1 "upper"))
                     (boot (T:=toy dip_profile 100) 0 0 0 []))))
    = pre ++ [TorchSave (T:=toy dip_profile 100) "r1-best-2ep" 4 ["a"; "b"; "c"]]
    /\ In (TorchSave (T:=toy dip_profile 100) "r1-best-2ep" 4 ["a"; "b"; "c"]) pre.
Proof.
  pose (self := toy_runner dip_profile 100 (toy_args 10 1 2 2 1 "upper")).
  pose (out := run self (boot (T:=toy dip_profile 100) 0 0 0 [])).
  assert (E : run self (boot (T:=toy dip_profile 100) 0 0 0 []) = (Ok tt, snd out))
    by (vm_compute; reflexivity).
  destruct (final_checkpoint_repeats (toy dip_profile 100) self 0 0 0 [] _ E)
    as [c [s [l [m [pre [El [Hl [Hm [_ [Hst Hin]]]]]]]]]].
  pose proof (f_equal fst El) as Hc. cbn [fst] in Hc. vm_compute in Hc. subst c.
  cbn [locals_of] in Hl. inversion Hl; subst l. clear Hl.
  cbn [best_model_state] in Hm. inversion Hm; subst m. clear Hm.
  exists pre. split; [exact Hst|]. apply Hin. reflexivity.
Defined.



(** ** The gradients an epoch leaves (src/sympa/runner.py) *)

Section LeftoverGradients.

Context {T : Collaborators} (self : Runner T).

(** A batch either closes a window, and leaves zeroed gradients, or adds its
    gradients to those accumulated and leaves the model as it was. *)
Lemma train_batch_grads step batch stats (s : machine T) :
  (grad_accum_steps (args self)) <> 0 ->
  exists stats' s',
    train_batch self step batch stats s = (Ok stats', s')
    /\ ((step + 1) mod (grad_accum_steps (args self)) = 0 -> model_grads s' = zero_gradients T)
    /\ ((step + 1) mod (grad_accum_steps (args self)) <> 0 ->
        model_state s' = model_state s
        /\ model_grads s' = backward T (model_state s) batch (grad_accum_steps (args self)) (model_grads s)).
Proof.
  intros Hacc. unfold train_batch, bind, get, emit, set_grads, lift, py_mod.
  cbn [trace model_state model_grads optimizer_state scheduler_state].
  destruct ((grad_accum_steps (args self)) =? 0) eqn:E0; [apply Z.eqb_eq in E0; contradiction|].
  destruct ((step + 1) mod (grad_accum_steps (args self)) =? 0) eqn:E.
  - unfold when, update, bind, get, emit, set_grads, set_optimizer, set_model.
    cbn [trace model_state model_grads optimizer_state scheduler_state].
    destruct (optimizer_step T _ _ _) as [o m].
    cbn [trace model_state model_grads optimizer_state scheduler_state].
    do 2 eexists. split; [reflexivity|]. cbn [model_grads model_state]. split.
    + reflexivity.
    + intros H. apply Z.eqb_eq in E. contradiction.
  - unfold when, ret. do 2 eexists. split; [reflexivity|].
    cbn [model_grads model_state]. split.
    + intros H. apply Z.eqb_neq in E. contradiction.
    + intros _. split; reflexivity.
Qed.

(** Batches that close no window accumulate their gradients. *)
Lemma train_batches_accumulate batches : forall step stats (s : machine T),
  (grad_accum_steps (args self)) <> 0 ->
  (forall i, step <= i < step + len batches -> (i + 1) mod (grad_accum_steps (args self)) <> 0) ->
  exists stats' s',
    train_batches self step batches stats s = (Ok stats', s')
    /\ model_state s' = model_state s
    /\ model_grads s' = accumulated_grads (grad_accum_steps (args self)) (model_state s) batches (model_grads s).
Proof.
  induction batches as [|b bs IH]; intros step stats s Hacc Hno.
  - exists stats, s. repeat split.
  - rewrite len_cons in Hno. pose proof (len_nonneg bs) as Hn.
    destruct (train_batch_grads step b stats s Hacc) as [stats1 [s1 [E1 [_ H1]]]].
    destruct (H1 ltac:(apply Hno; lia)) as [Hm1 Hg1].
    destruct (IH (step + 1) stats1 s1 Hacc ltac:(intros i Hi; apply Hno; lia))
      as [stats' [s' [E2 [Hm2 Hg2]]]].
    exists stats', s'. cbn [train_batches]. unfold bind. rewrite E1, E2.
    split; [reflexivity|]. split; [congruence|].
    rewrite Hg2, Hm1, Hg1. reflexivity.
Qed.

(** Batches that fill complete windows, from zeroed gradients, leave zeroed
    gradients. *)
Lemma train_batches_complete batches stats (s : machine T) :
  0 < (grad_accum_steps (args self)) ->
  len batches mod (grad_accum_steps (args self)) = 0 ->
  model_grads s = zero_gradients T ->
  exists stats' s',
    train_batches self 0 batches stats s = (Ok stats', s')
    /\ model_grads s' = zero_gradients T.
Proof.
  intros Hpos Hmod Hz.
  destruct (train_batches_spec self batches 0 stats s ltac:(lia))
    as [losses [stats' [s' [E _]]]].
  exists stats', s'. split; [exact E|].
  destruct batches as [|b0 bs0].
  { cbn [train_batches] in E. unfold ret in E. inversion E; subst. exact Hz. }
  destruct (exists_last (l:=b0 :: bs0) ltac:(discriminate)) as [pre [b Hb]].
  rewrite Hb in E, Hmod. rewrite train_batches_app in E.
  destruct (train_batches_spec self pre 0 stats s ltac:(lia))
    as [losses1 [stats1 [s1 [E1 _]]]].
  rewrite E1 in E. cbn [train_batches] in E. unfold bind in E.
  destruct (train_batch_grads (0 + len pre) b stats1 s1 ltac:(lia))
    as [stats2 [s2 [E2 [Hclose _]]]].
  rewrite E2 in E. unfold ret in E. inversion E; subst stats' s'.
  apply Hclose. rewrite len_app in Hmod. exact Hmod.
Qed.

(** After its opening calls, an epoch whose check passes is its batch loop
    from zeroed gradients, as far as the model and the gradients go. *)
Lemma train_epoch_batches_grads epoch_num (s : machine T) :
  fst (fst (check_all_points T (model_state s))) = true ->
  exists s0,
    model_grads s0 = zero_gradients T
    /\ forall batches,
        model_grads (snd (train_epoch self batches epoch_num s))
        = model_grads (snd (train_batches self 0 batches (0%Q, 0%Q) s0))
        /\ model_state (snd (train_epoch self batches epoch_num s))
           = model_state (snd (train_batches self 0 batches (0%Q, 0%Q) s0)).
Proof.
  intros Hok.
  unfold train_epoch, check_points_in_manifold, bind, get, emit, set_grads.
  cbn [trace model_state model_grads optimizer_state scheduler_state].
  destruct (check_all_points T (model_state s)) as [[ok point] reason].
  cbn [fst] in Hok. subst ok. cbn [negb]. unfold ret.
  cbn [trace model_state model_grads optimizer_state scheduler_state].
  exists {| model_state := model_state s;
            model_grads := zero_gradients T;
            optimizer_state := optimizer_state s;
            scheduler_state := scheduler_state s;
            trace := (((trace s ++ [CheckAllPoints]) ++ [ModelTrain])
                      ++ [ModelZeroGrad]) ++ [OptimizerZeroGrad] |}.
  split; [reflexivity|]. intros batches.
  destruct (train_batches self 0 batches _ _) as [[stats|err] s1]; cbn [snd];
    [|split; reflexivity].
  unfold lift, py_div. destruct (len batches =? 0); cbn [snd]; split; reflexivity.
Qed.

End LeftoverGradients.

(** X16.  With a positive accumulation window, an epoch whose check passes
    leaves as gradients those of the batches after its last complete window,
    accumulated from zero under the model the epoch ends with; when the
    number of batches is divisible by [grad_accum_steps], it leaves zeroed
    gradients. *)
Theorem leftover_gradients (T : Collaborators) (self : Runner T)
    (batches : list Tensor) (epoch_num : Z) (s : machine T) :
  0 < grad_accum_steps (args self) ->
  fst (fst (check_all_points T (model_state s))) = true ->
  model_grads (snd (train_epoch self batches epoch_num s))
  = accumulated_grads (grad_accum_steps (args self))
      (model_state (snd (train_epoch self batches epoch_num s)))
      (skipn (Z.to_nat (grad_accum_steps (args self)
                        * (len batches / grad_accum_steps (args self)))) batches)
      (zero_gradients T)
  /\ (len batches mod grad_accum_steps (args self) = 0 ->
      model_grads (snd (train_epoch self batches epoch_num s)) = zero_gradients T).
Proof.
  intros Hpos Hok. set (G := grad_accum_steps (args self)) in *.
  set (n := Z.to_nat (G * (len batches / G))).
  destruct (train_epoch_batches_grads self epoch_num s Hok) as [s0 [Hz Hb]].
  destruct (Hb batches) as [Hg Hm]. clear Hb.
  assert (Hmain : model_grads (snd (train_epoch self batches epoch_num s))
                  = accumulated_grads G
                      (model_state (snd (train_epoch self batches epoch_num s)))
                      (skipn n batches) (zero_gradients T)).
  { rewrite Hg, Hm. clear Hg Hm.
    pose proof (train_batches_app self (firstn n batches) (skipn n batches) 0
                  (0%Q, 0%Q) s0) as Happ.
    rewrite firstn_skipn in Happ. rewrite Happ. clear Happ.
    assert (Hlen : len (firstn n batches) = G * (len batches / G))
      by (apply (len_complete_windows self batches Hpos)).
    destruct (train_batches_complete self (firstn n batches) (0%Q, 0%Q) s0 Hpos)
      as [stats1 [s1 [E1 Hz1]]].
    { rewrite Hlen, Z.mul_comm. apply Z_mod_mult. }
    { exact Hz. }
    rewrite E1.
    destruct (train_batches_accumulate self (skipn n batches)
                (0 + len (firstn n batches)) stats1 s1 ltac:(fold G; lia))
      as [stats2 [s2 [E2 [Hm2 Hg2]]]].
    { intros i Hi. apply (trailing_batches_no_update self batches i Hpos).
      unfold complete_windows. fold G. fold n. lia. }
    rewrite E2. cbn [snd]. rewrite Hg2, Hm2, Hz1. reflexivity. }
  split; [exact Hmain|].
  intros Hmod. rewrite Hmain.
  assert (Hn : n = List.length batches).
  { unfold n. pose proof (Z.div_mod (len batches) G ltac:(lia)) as D.
    rewrite Hmod, Z.add_0_r in D. rewrite <- D. unfold len. apply Nat2Z.id. }
  rewrite Hn, skipn_all. reflexivity.
Qed.

Lemma leftover_gradients_witness :
  model_grads (snd (train_epoch (toy_runner flat_profile 100 (toy_args 10 2 4 2 1 "upper"))
                      three_batches 1 (boot (T:=toy flat_profile 100) 0 7 0 [])))
  = 5.
Proof.
  destruct (leftover_gradients (toy flat_profile 100)
              (toy_runner flat_profile 100 (toy_args 10 2 4 2 1 "upper"))
              three_batches 1 (boot (T:=toy flat_profile 100) 0 7 0 []))
    as [H _]; [reflexivity | reflexivity |].
  rewrite H. vm_compute. reflexivity.
Defined.
